(** * Reassignment workflow and request layer of the ticket dashboard

    A shallow embedding of the front-end request helper
    ([frontend/public/assets/index.js], the [backendAPI.js] part), of the
    ticket hook ([frontend/hooks/useTickets.js]) and of the row component
    ([TicketRow.jsx], [NotesEditor.jsx]), with the properties the
    specification states about them; then of the code around them: the
    users hook ([useUsers.js]), the tabs, counts and export button of
    [Dashboard.jsx], the SDK helper ([services/zaf.js]) and the bootstrap
    of the preview page ([public/assets/index.js]), with properties read
    off that code.

    Conventions.
    - JavaScript values are the inductive [jsval]; numbers are the integers
      (ticket and agent identifiers, HTTP status codes), which JavaScript
      prints in plain decimal below 10^21.
    - Strings are sequences of bytes (UTF-8).
    - A network call is answered by a [FetchOutcome]; the answers to the
      successive attempts of one call form a stream [nat -> FetchOutcome].
    - What a component does is recorded as a list of [Event]s: state setters,
      network calls issued, promises settled.  The state of a component after
      a run is obtained by replaying the setters. *)

From Stdlib Require Import ZArith List String Ascii Bool Lia DecimalString.
From Stdlib Require DecimalZ DecimalPos.
Import ListNotations.
Local Open Scope string_scope.
Local Open Scope Z_scope.
Set Warnings "-register-all".

(* ================================================================== *)
(** ** JavaScript values                                               *)
(* ================================================================== *)

Module JS.

Inductive jsval : Type :=
| JUndefined
| JNull
| JBool (b : bool)
| JNum (n : Z)
| JStr (s : string)
| JArr (items : list jsval)
| JObj (fields : list (string * jsval)).

(** [if (v)], [v || d], [!!v]. *)
Definition truthy (v : jsval) : bool :=
  match v with
  | JUndefined | JNull => false
  | JBool b => b
  | JNum n => negb (n =? 0)
  | JStr s => negb (s =? "")%string
  | JArr _ | JObj _ => true
  end.

(** [a || b] *)
Definition or_else (a b : jsval) : jsval := if truthy a then a else b.

(** [s || d] on strings. *)
Definition str_or (s d : string) : string :=
  if (s =? "")%string then d else s.

(** [String(n)] for an integer. *)
Definition String_of_Z (n : Z) : string := NilZero.string_of_int (Z.to_int n).

(** [String(v)], also the conversion a template literal and the
    [URLSearchParams] constructor apply. *)
Fixpoint ToString (v : jsval) : string :=
  match v with
  | JUndefined => "undefined"
  | JNull => "null"
  | JBool true => "true"
  | JBool false => "false"
  | JNum n => String_of_Z n
  | JStr s => s
  | JArr items =>
      (fix join (l : list jsval) : string :=
         match l with
         | [] => ""
         | x :: rest =>
             let sx := match x with
                       | JUndefined | JNull => ""
                       | _ => ToString x
                       end in
             match rest with
             | [] => sx
             | _ :: _ => sx ++ "," ++ join rest
             end
         end) items
  | JObj _ => "[object Object]"
  end.

(** Own properties of a plain object, in property order. *)
Definition Fields : Type := list (string * jsval).

(** [o.k] on the fields of a plain object: [undefined] when absent. *)
Fixpoint get (k : string) (o : Fields) : jsval :=
  match o with
  | [] => JUndefined
  | (k', v) :: rest => if (k' =? k)%string then v else get k rest
  end.


(** [{ ...o, k: v }]: an existing key keeps its place and takes the new
    value, a new key goes last. *)
Fixpoint set (k : string) (v : jsval) (o : Fields) : Fields :=
  match o with
  | [] => [(k, v)]
  | (k', v') :: rest =>
      if (k' =? k)%string then (k', v) :: rest else (k', v') :: set k v rest
  end.

(** *** application/x-www-form-urlencoded, as [URLSearchParams.toString] *)

Definition between (lo hi : nat) (c : ascii) : bool :=
  let n := nat_of_ascii c in (Nat.leb lo n && Nat.leb n hi)%bool.

(** Bytes the serializer leaves as they are: ASCII alphanumerics and
    [* - . _]. *)
Definition form_safe (c : ascii) : bool :=
  (between 48 57 c || between 65 90 c || between 97 122 c ||
   Ascii.eqb c "*" || Ascii.eqb c "-" || Ascii.eqb c "." || Ascii.eqb c "_")%bool.

Definition hex_digit (n : nat) : ascii :=
  if Nat.ltb n 10 then ascii_of_nat (48 + n) else ascii_of_nat (55 + n).

Definition encode_byte (c : ascii) : string :=
  if Ascii.eqb c " " then "+"
  else if form_safe c then String c ""
  else let n := nat_of_ascii c in
       String "%" (String (hex_digit (Nat.div n 16))
                     (String (hex_digit (Nat.modulo n 16)) "")).

Fixpoint urlencode (s : string) : string :=
  match s with
  | EmptyString => ""
  | String c rest => encode_byte c ++ urlencode rest
  end.

Definition encode_pair (kv : string * string) : string :=
  urlencode (fst kv) ++ "=" ++ urlencode (snd kv).

Fixpoint join_amp (l : list string) : string :=
  match l with
  | [] => ""
  | [x] => x
  | x :: rest => x ++ "&" ++ join_amp rest
  end.

(** [new URLSearchParams(o)]: every value goes through [String]. *)
Definition URLSearchParams (o : Fields) : list (string * string) :=
  map (fun kv => (fst kv, ToString (snd kv))) o.

Definition serialize (entries : list (string * string)) : string :=
  join_amp (map encode_pair entries).

(** *** [String.prototype.trim]

    [trim] strips, at both ends, the characters the language calls
    WhiteSpace and LineTerminator. In UTF-8 they are:
    - one byte: U+0009 to U+000D and U+0020;
    - two bytes: U+00A0 (C2 A0);
    - three bytes: U+1680 (E1 9A 80); U+2000 to U+200A, U+2028, U+2029
      and U+202F (E2 80 80 to E2 80 8A, E2 80 A8, E2 80 A9, E2 80 AF);
      U+205F (E2 81 9F); U+3000 (E3 80 80); U+FEFF (EF BB BF). *)

Definition byte_is (n : nat) (c : ascii) : bool := Nat.eqb (nat_of_ascii c) n.

Definition is_space (c : ascii) : bool :=
  (between 9 13 c || Ascii.eqb c " ")%bool.

Definition is_space2 (c1 c2 : ascii) : bool :=
  (byte_is 194 c1 && byte_is 160 c2)%bool.

Definition is_space3 (c1 c2 c3 : ascii) : bool :=
  ((byte_is 225 c1 && byte_is 154 c2 && byte_is 128 c3)
   || (byte_is 226 c1 && byte_is 128 c2 &&
       (between 128 138 c3 || byte_is 168 c3 || byte_is 169 c3 || byte_is 175 c3))
   || (byte_is 226 c1 && byte_is 129 c2 && byte_is 159 c3)
   || (byte_is 227 c1 && byte_is 128 c2 && byte_is 128 c3)
   || (byte_is 239 c1 && byte_is 187 c2 && byte_is 191 c3))%bool.

Section Strip.

(** Which sequences of one, two and three bytes are to go. *)
Variable p1 : ascii -> bool.
Variable p2 : ascii -> ascii -> bool.
Variable p3 : ascii -> ascii -> ascii -> bool.

(** Drops such sequences from the front of [s], as long as there is one. *)
Fixpoint strip (s : string) : string :=
  match s with
  | EmptyString => ""
  | String c1 r1 =>
      if p1 c1 then strip r1
      else
        match r1 with
        | EmptyString => s
        | String c2 r2 =>
            if p2 c1 c2 then strip r2
            else
              match r2 with
              | EmptyString => s
              | String c3 r3 => if p3 c1 c2 c3 then strip r3 else s
              end
        end
  end.

End Strip.

(** The bytes of [s] in reverse order. *)
Definition reverse (s : string) : string :=
  string_of_list_ascii (rev (list_ascii_of_string s)).

Definition trim_start (s : string) : string :=
  strip is_space is_space2 is_space3 s.

(** The white space at the end of [s] is the white space at the front of
    its reverse, the bytes of each character read backwards. *)
Definition trim_end (s : string) : string :=
  reverse
    (strip is_space
       (fun c1 c2 => is_space2 c2 c1)
       (fun c1 c2 c3 => is_space3 c3 c2 c1)
       (reverse s)).

Definition trim (s : string) : string := trim_end (trim_start s).

End JS.
Import JS.


(* ================================================================== *)
(** ** The request helper ([backendAPI.js])                            *)
(* ================================================================== *)

Module Gateway.

(** The console output of [req] and the bookkeeping of its timer are left
    out: they change neither what is sent nor how the call settles. The
    timer itself is the outcome [TimedOut]. *)

(** What [fetch] is called with. [body] is the value handed to
    [JSON.stringify], [None] when the call has no body. *)
Record Request : Type := mkRequest {
  url : string;
  method : string;
  headers : list (string * string);
  body : option jsval
}.

(** An HTTP response as the helper reads it.  [text] is [None] when
    [res.text()] rejects; [json] is [inl m] when [res.json()] rejects with
    an error of message [m]. *)
Record Response : Type := mkResponse {
  status : Z;
  statusText : string;
  text : option string;
  json : string + jsval
}.

(** [res.ok]: the status is in the range 200-299. *)
Definition ok (r : Response) : bool := (200 <=? status r) && (status r <=? 299).

(** The errors the platform raises: [TypeError] is what [fetch] rejects with
    on a network failure, [AbortError] what it rejects with when the
    30-second timer aborts the call, [SyntaxError] what [res.json()]
    rejects with. *)
Inductive ErrorName : Type := TypeError | AbortError | SyntaxError.

Definition name_text (n : ErrorName) : string :=
  match n with
  | TypeError => "TypeError"
  | AbortError => "AbortError"
  | SyntaxError => "SyntaxError"
  end.

(** How one [fetch] ends. *)
Inductive FetchOutcome : Type :=
| Responded (r : Response)
| NetworkError (m : string)   (* fetch rejects: TypeError *)
| TimedOut (m : string).      (* the timer fired: controller.abort() *)

(** What a [throw] carries. *)
Inductive Thrown : Type :=
| Failure (st : Z) (message : string)           (* { status, message } *)
| Raised (name : ErrorName) (message : string).  (* an Error instance *)

(** [err?.status] *)
Definition status_of (e : Thrown) : option Z :=
  match e with
  | Failure st _ => Some st
  | Raised _ _ => None
  end.

(** [e.message] *)
Definition message_of (e : Thrown) : string :=
  match e with
  | Failure _ m => m
  | Raised _ m => m
  end.

(** [String(e)] *)
Definition String_of_thrown (e : Thrown) : string :=
  match e with
  | Failure _ _ => "[object Object]"
  | Raised n m =>
      if (m =? "")%string then name_text n else name_text n ++ ": " ++ m
  end.

(** How a promise settles. *)
Inductive Settlement : Type :=
| Resolved (v : jsval)
| Rejected (e : Thrown).

(** The [try] block of [req] once [fetch] has ended: the non-ok branch
    reads the body text, falls back on the status text when reading fails,
    and throws [{ status, message: detail || "Request failed" }]. *)
Definition attempt (o : FetchOutcome) : Settlement :=
  match o with
  | NetworkError m => Rejected (Raised TypeError m)
  | TimedOut m => Rejected (Raised AbortError m)
  | Responded r =>
      if ok r then
        match json r with
        | inr v => Resolved v
        | inl m => Rejected (Raised SyntaxError m)
        end
      else
        let detail := match text r with
                      | Some t => t
                      | None => statusText r
                      end in
        Rejected (Failure (status r) (str_or detail "Request failed"))
  end.

(** [err?.status === 502 || err?.status === 503 || err?.status === 504] *)
Definition transient (e : Thrown) : bool :=
  match status_of e with
  | Some st => (st =? 502) || (st =? 503) || (st =? 504)
  | None => false
  end.

(** The [catch] block of [req]: with [retries] left, either call [req]
    again with one retry less, or rethrow. *)
Inductive Next : Type :=
| Again (retries : nat)
| Settle (s : Settlement).

Definition req_step (retries : nat) (o : FetchOutcome) : Next :=
  match attempt o with
  | Resolved v => Settle (Resolved v)
  | Rejected e =>
      match retries with
      | S r => if transient e then Again r else Settle (Rejected e)
      | O => Settle (Rejected e)
      end
  end.

(** [req] against the answers [srv i], [srv (i+1)], ...: how the returned
    promise settles and how many times [fetch] was called. *)
Fixpoint req_from (srv : nat -> FetchOutcome) (i retries : nat)
  : Settlement * nat :=
  match attempt (srv i) with
  | Resolved v => (Resolved v, 1%nat)
  | Rejected e =>
      match retries with
      | S r =>
          if transient e
          then let (s, n) := req_from srv (S i) r in (s, S n)
          else (Rejected e, 1%nat)
      | O => (Rejected e, 1%nat)
      end
  end.

Definition CLIENT_TAG : string := "ZAF-Frontend".
Definition CLIENT_VERSION : string := "2.0.0".

(** The options of [req] with their defaults. [token] is the empty string
    when there is none; [body] is [undefined] when there is none. *)
Record Options : Type := mkOptions {
  o_method : string;
  o_body : jsval;
  o_token : string;
  o_retries : nat
}.

Definition defaults (token : string) : Options :=
  {| o_method := "GET"; o_body := JUndefined; o_token := token;
     o_retries := 1 |}.

Section WithBase.

(** The module-level [BASE], as [setBackendBaseUrl] left it. *)
Variable BASE : string.

(** The request every attempt of [req(path, opts)] sends. *)
Definition request_of (path : string) (opts : Options) : Request :=
  {| url := BASE ++ path;
     method := o_method opts;
     headers :=
       [("Content-Type", "application/json");
        ("X-Request-Source", CLIENT_TAG);
        ("X-Client-Version", CLIENT_VERSION)]
       ++ (if (o_token opts =? "")%string then []
           else [("Authorization", "Bearer " ++ o_token opts)]);
     body := if truthy (o_body opts) then Some (o_body opts) else None |}.

(** [req(path, opts)]: the settlement and the requests sent, in order. *)
Definition req (srv : nat -> FetchOutcome) (path : string) (opts : Options)
  : Settlement * list Request :=
  let (s, n) := req_from srv 0 (o_retries opts) in
  (s, repeat (request_of path opts) n).

(** [getMeetingWindow(token)] *)
Definition getMeetingWindow_call (token : string) : string * Options :=
  ("/api/meeting-window", defaults token).

(** The query of [getTickets]:
    [new URLSearchParams({ ...params, bucketed: params.bucketed !== undefined
       ? String(params.bucketed) : "true" }).toString()] *)
Definition tickets_entries (params : Fields) : list (string * string) :=
  URLSearchParams
    (set "bucketed"
       (match get "bucketed" params with
        | JUndefined => JStr "true"
        | v => JStr (ToString v)
        end)
       params).

Definition tickets_query (params : Fields) : string :=
  serialize (tickets_entries params).

(** [getTickets(token, params)] *)
Definition getTickets_call (token : string) (params : Fields)
  : string * Options :=
  ("/api/tickets?" ++ tickets_query params, defaults token).

(** [patchTicket(token, id, fields)] *)
Definition patchTicket_call (token : string) (id : Z) (fields : jsval)
  : string * Options :=
  ("/api/tickets/" ++ String_of_Z id,
   {| o_method := "PATCH"; o_body := fields; o_token := token;
      o_retries := 1 |}).

(** [addComment(token, id, body, isPublic)] *)
Definition addComment_call (token : string) (id : Z) (body : jsval)
    (isPublic : jsval) : string * Options :=
  ("/api/tickets/" ++ String_of_Z id ++ "/comments",
   {| o_method := "POST";
      o_body := JObj [("body", body); ("public", JBool (truthy isPublic))];
      o_token := token;
      o_retries := 1 |}).

Definition call (srv : nat -> FetchOutcome) (c : string * Options)
  : Settlement * list Request :=
  req srv (fst c) (snd c).

Definition request_of_call (c : string * Options) : Request :=
  request_of (fst c) (snd c).

End WithBase.

End Gateway.

(* ================================================================== *)
(** ** What a run leaves behind                                        *)
(* ================================================================== *)

Module Trace.
Import Gateway.

(** The two reads [refresh] hands to [Promise.all]. *)
Inductive Read : Type := MeetingWindow | Tickets.

Inductive Event : Type :=
(* setters of useTickets *)
| SetMeetingWindow (v : jsval)
| SetRows (v : jsval)
| SetLoading (b : bool)
| SetErr (m : string)
(* setters of TicketRow *)
| SetAssignee (v : jsval)
| SetGroup (v : jsval)
(* the network *)
| Fetch (r : Request)
| Settled (rd : Read) (s : Settlement).

End Trace.

(* ================================================================== *)
(** ** The ticket hook ([useTickets.js])                               *)
(* ================================================================== *)

Module Hook.
Import Gateway Trace.

Record State : Type := mkState {
  meetingWindow : jsval;
  rows : jsval;
  loading : bool;
  err : string
}.

(** The [useState] initial values. *)
Definition initial : State :=
  {| meetingWindow := JNull; rows := JArr []; loading := true; err := "" |}.

Definition apply (h : State) (e : Event) : State :=
  match e with
  | SetMeetingWindow v =>
      {| meetingWindow := v; rows := rows h; loading := loading h; err := err h |}
  | SetRows v =>
      {| meetingWindow := meetingWindow h; rows := v; loading := loading h; err := err h |}
  | SetLoading b =>
      {| meetingWindow := meetingWindow h; rows := rows h; loading := b; err := err h |}
  | SetErr m =>
      {| meetingWindow := meetingWindow h; rows := rows h; loading := loading h; err := m |}
  | _ => h
  end.

Definition replay (h : State) (evs : list Event) : State :=
  fold_left apply evs h.

(** The [catch] of [refresh]:
    [e?.status ? `Error ${e.status}: ${e.message || "Unknown error"}`
               : e.message || String(e)] *)
Definition refresh_message (e : Thrown) : string :=
  match status_of e with
  | Some st =>
      if truthy (JNum st)
      then "Error " ++ String_of_Z st ++ ": " ++ str_or (message_of e) "Unknown error"
      else str_or (message_of e) (String_of_thrown e)
  | None => str_or (message_of e) (String_of_thrown e)
  end.

(** The message of the TypeError raised by [data.rows] on [null] or
    [undefined] (the text is the engine's; this is V8's). *)
Definition cannot_read_rows (v : jsval) : string :=
  "Cannot read properties of " ++ ToString v ++ " (reading 'rows')".

(** [refresh] after [Promise.all] resolved with [[mw, data]]:
    [setMeetingWindow(mw); setRows(data.rows || [])], the [catch] when
    [data.rows] throws, then [finally]. *)
Definition refresh_resolved (mw data : jsval) : list Event :=
  SetMeetingWindow mw ::
  match data with
  | JUndefined | JNull =>
      [SetErr (refresh_message (Raised TypeError (cannot_read_rows data)));
       SetLoading false]
  | JObj fields =>
      [SetRows (or_else (get "rows" fields) (JArr [])); SetLoading false]
  | _ =>
      [SetRows (JArr []); SetLoading false]
  end.

(** [refresh] after [Promise.all] rejected with [e]: [catch], [finally]. *)
Definition refresh_rejected (e : Thrown) : list Event :=
  [SetErr (refresh_message e); SetLoading false].

(** Where one of the two reads stands: its attempt [i] is in flight with
    [retries] left, or its promise has settled. *)
Inductive ReadState : Type :=
| InFlight (i retries : nat)
| Done (s : Settlement).

(** A [refresh] between its first [await] and its end: the two reads, and
    whether [Promise.all] has settled (the rest of [refresh] ran then). *)
Record Pending : Type := mkPending {
  mwS : ReadState;
  tkS : ReadState;
  joined : bool
}.

(** The answers of the server to the attempts of each read. *)
Record Server : Type := mkServer {
  mw_answers : nat -> FetchOutcome;
  tk_answers : nat -> FetchOutcome
}.

Definition answers (srv : Server) (rd : Read) : nat -> FetchOutcome :=
  match rd with
  | MeetingWindow => mw_answers srv
  | Tickets => tk_answers srv
  end.

Definition state_of (p : Pending) (rd : Read) : ReadState :=
  match rd with
  | MeetingWindow => mwS p
  | Tickets => tkS p
  end.

Definition other (rd : Read) : Read :=
  match rd with
  | MeetingWindow => Tickets
  | Tickets => MeetingWindow
  end.

Definition with_state (p : Pending) (rd : Read) (st : ReadState) (j : bool)
  : Pending :=
  match rd with
  | MeetingWindow => {| mwS := st; tkS := tkS p; joined := j |}
  | Tickets => {| mwS := mwS p; tkS := st; joined := j |}
  end.

(** [Promise.all([mw, tk])] when read [rd] settles with [s], the other read
    standing at [oth]: it rejects on the first rejection, resolves when
    both have resolved, and is settled once. *)
Definition react (rd : Read) (s : Settlement) (oth : ReadState) (j : bool)
  : list Event * bool :=
  if j then ([], true)
  else
    match s with
    | Rejected e => (refresh_rejected e, true)
    | Resolved v =>
        match oth with
        | Done (Resolved w) =>
            (match rd with
             | MeetingWindow => refresh_resolved v w
             | Tickets => refresh_resolved w v
             end, true)
        | _ => ([], false)
        end
    end.

(** The fetch in flight for read [rd] ends. [rq] is the request of that
    read, sent again on a retry. Nothing happens when [rd] has settled. *)
Definition step (srv : Server) (rq : Read -> Request) (p : Pending) (rd : Read)
  : Pending * list Event :=
  match state_of p rd with
  | Done _ => (p, [])
  | InFlight i retries =>
      match req_step retries (answers srv rd i) with
      | Again r => (with_state p rd (InFlight (S i) r) (joined p), [Fetch (rq rd)])
      | Settle s =>
          let (evs, j) := react rd s (state_of p (other rd)) (joined p) in
          (with_state p rd (Done s) j, Settled rd s :: evs)
      end
  end.

(** The fetches end in the order [sched] gives. *)
Fixpoint run (srv : Server) (rq : Read -> Request) (p : Pending)
    (sched : list Read) : Pending * list Event :=
  match sched with
  | [] => (p, [])
  | rd :: rest =>
      let (p1, evs1) := step srv rq p rd in
      let (p2, evs2) := run srv rq p1 rest in
      (p2, (evs1 ++ evs2)%list)
  end.

Section WithSession.

Variable BASE : string.
Variable authToken : string.

Definition refresh_requests (params : Fields) (rd : Read) : Request :=
  match rd with
  | MeetingWindow => request_of_call BASE (getMeetingWindow_call authToken)
  | Tickets => request_of_call BASE (getTickets_call authToken params)
  end.

(** Both reads start with the default retry budget, their first fetch in
    flight. *)
Definition started : Pending :=
  {| mwS := InFlight 0 (o_retries (defaults authToken));
     tkS := InFlight 0 (o_retries (defaults authToken));
     joined := false |}.

(** [refresh(params)] up to its first [await]: both calls are made while
    the array handed to [Promise.all] is built. *)
Definition refresh_start (params : Fields) : list Event :=
  [SetLoading true; SetErr "";
   Fetch (refresh_requests params MeetingWindow);
   Fetch (refresh_requests params Tickets)].

(** [refresh(params)], the fetches ending in the order [sched]. *)
Definition refresh (srv : Server) (params : Fields) (sched : list Read)
  : list Event :=
  (refresh_start params ++
   snd (run srv (refresh_requests params) started sched))%list.

(** Whether that [refresh] has run to its end. *)
Definition refresh_finished (srv : Server) (params : Fields)
    (sched : list Read) : bool :=
  joined (fst (run srv (refresh_requests params) started sched)).

(** What a mutation runs against: the answers to its write, then the
    server and the schedule of the refresh that follows. *)
Record World : Type := mkWorld {
  write_answers : nat -> FetchOutcome;
  server : Server;
  schedule : list Read
}.

(** The shape shared by the three mutations:
    [try { await write; await refresh(); } catch (e) { setErr(e.message || fallback); }] *)
Definition mutate (w : World) (c : string * Options) (fallback : string)
  : list Event :=
  let (s, sent) := call BASE (write_answers w) c in
  (map Fetch sent ++
   match s with
   | Resolved _ => refresh (server w) [] (schedule w)
   | Rejected e => [SetErr (str_or (message_of e) fallback)]
   end)%list.

(** [updateStatus(id, status)] *)
Definition updateStatus (w : World) (id : Z) (status : jsval) : list Event :=
  mutate w (patchTicket_call authToken id (JObj [("status", status)]))
    "Failed to update status".

(** [reassign(id, assignee_id)] *)
Definition reassign (w : World) (id : Z) (assignee_id : jsval) : list Event :=
  mutate w (patchTicket_call authToken id (JObj [("assignee_id", assignee_id)]))
    "Failed to reassign ticket".

(** [addNote(id, body, isPublic)] *)
Definition addNote (w : World) (id : Z) (body : string) (isPublic : jsval)
  : list Event :=
  mutate w (addComment_call authToken id (JStr body) isPublic)
    "Failed to add note".

End WithSession.

End Hook.

(* ================================================================== *)
(** ** The row component ([TicketRow.jsx], [NotesEditor.jsx])          *)
(* ================================================================== *)

Module TicketRow.
Import Gateway Trace.

(** An entry of the list [/api/users] returns. *)
Record Agent : Type := mkAgent {
  id : Z;
  name : string;
  group_id : jsval
}.

Section Handlers.

(** [Number(s)] on a string, the conversion of the language. *)
Variable Number : string -> jsval.

(** The prop [onReassign]: what calling it does. *)
Variable onReassign : Z -> jsval -> list Event.

(** [users.find((u) => String(u.id) === newAssignee)] *)
Definition find_selected (users : list Agent) (newAssignee : string)
  : option Agent :=
  find (fun u => (String_of_Z (id u) =? newAssignee)%string) users.

(** The [onChange] of the assignee [select] of ticket [t_id], the list
    [users] being loaded, the option of value [newAssignee] chosen. *)
Definition onAssigneeChange (users : list Agent) (t_id : Z)
    (newAssignee : string) : list Event :=
  SetAssignee (JStr newAssignee) ::
  if truthy (JStr newAssignee) then
    match find_selected users newAssignee with
    | Some selected =>
        SetGroup (group_id selected) ::
        onReassign t_id
          (JObj [("assignee_id", JNum (id selected));
                 ("group_id", group_id selected)])
    | None =>
        onReassign t_id (JObj [("assignee_id", Number newAssignee)])
    end
  else [].

End Handlers.

(** The group the row shows: [useState(t.group || "")], then the last
    [setGroup]. *)
Definition shown_group (g : jsval) (evs : list Event) : jsval :=
  fold_left (fun g e => match e with SetGroup v => v | _ => g end) evs g.

End TicketRow.

Module NotesEditor.

Record State : Type := mkState {
  text : string;
  isPublic : bool
}.

(** The [onClick] of the Add button:
    [if (text.trim()) { onSubmit(text.trim(), isPublic); setText(""); }].
    Returns the arguments [onSubmit] is called with, if it is called, and
    the state the click leaves. *)
Definition onAddClick (s : State) : option (string * bool) * State :=
  if truthy (JStr (trim (text s)))
  then (Some (trim (text s), isPublic s), {| text := ""; isPublic := isPublic s |})
  else (None, s).

End NotesEditor.

(* ================================================================== *)
(** ** The dashboard wiring ([Dashboard.jsx], [TicketTable.jsx])       *)
(* ================================================================== *)

Module Dashboard.
Import Gateway Trace.

Section Wiring.

Variable BASE : string.
Variable token : string.
Variable Number : string -> jsval.

(** [<TicketTable onReassign={reassign} ... />], handed on to each row:
    choosing an assignee in the row of ticket [t_id]. *)
Definition chooseAssignee (w : Hook.World) (users : list TicketRow.Agent)
    (t_id : Z) (newAssignee : string) : list Event :=
  TicketRow.onAssigneeChange Number (Hook.reassign BASE token w)
    users t_id newAssignee.

(** [<NotesEditor onSubmit={(body, isPublic) => onNote(t.id, body, isPublic)} />]
    with [onNote={addNote}]: clicking Add in the row of ticket [t_id]. *)
Definition clickAdd (w : Hook.World) (t_id : Z) (s : NotesEditor.State)
  : list Event * NotesEditor.State :=
  match NotesEditor.onAddClick s with
  | (Some (body, pub), s') => (Hook.addNote BASE token w t_id body (JBool pub), s')
  | (None, s') => ([], s')
  end.

End Wiring.

End Dashboard.

(* ================================================================== *)
(** ** Reading a list of events                                        *)
(* ================================================================== *)

Module Observe.
Import Gateway Trace.

(** The requests sent, in order. *)
Fixpoint fetched (evs : list Event) : list Request :=
  match evs with
  | [] => []
  | Fetch r :: rest => r :: fetched rest
  | _ :: rest => fetched rest
  end.

(** The setters of the hook. *)
Definition hook_setter (e : Event) : bool :=
  match e with
  | SetMeetingWindow _ | SetRows _ | SetLoading _ | SetErr _ => true
  | _ => false
  end.

Definition setters (evs : list Event) : list Event := filter hook_setter evs.


(** Which settlements of the two reads have been seen so far. *)
Record Seen : Type := mkSeen {
  mw_resolved : bool;
  tk_resolved : bool;
  rejected : bool
}.

Definition nothing_seen : Seen :=
  {| mw_resolved := false; tk_resolved := false; rejected := false |}.

Definition note (s : Seen) (e : Event) : Seen :=
  match e with
  | Settled MeetingWindow (Resolved _) =>
      {| mw_resolved := true; tk_resolved := tk_resolved s; rejected := rejected s |}
  | Settled Tickets (Resolved _) =>
      {| mw_resolved := mw_resolved s; tk_resolved := true; rejected := rejected s |}
  | Settled _ (Rejected _) =>
      {| mw_resolved := mw_resolved s; tk_resolved := tk_resolved s; rejected := true |}
  | _ => s
  end.

(** Both reads have resolved, or one of them has rejected. *)
Definition may_clear (s : Seen) : bool :=
  (mw_resolved s && tk_resolved s) || rejected s.

(** Every [setLoading(false)] of [evs] comes when [may_clear] holds of
    what precedes it. *)
Fixpoint cleared_in_time (s : Seen) (evs : list Event) : bool :=
  match evs with
  | [] => true
  | e :: rest =>
      (match e with
       | SetLoading false => may_clear s
       | _ => true
       end) && cleared_in_time (note s e) rest
  end.

(** How many fetches of read [rd] the schedule lets end. *)
Definition same_read (a b : Read) : bool :=
  match a, b with
  | MeetingWindow, MeetingWindow | Tickets, Tickets => true
  | _, _ => false
  end.

Definition deliveries (rd : Read) (sched : list Read) : nat :=
  List.length (filter (same_read rd) sched).

End Observe.

(* ================================================================== *)
(** ** Calls made one after the other                                  *)
(* ================================================================== *)

Module Session.
Import Gateway Trace.

(** A call of one of the functions the hook returns, with what it runs
    against. *)
Inductive Call : Type :=
| CallRefresh (srv : Hook.Server) (params : Fields) (sched : list Read)
| CallUpdateStatus (w : Hook.World) (id : Z) (status : jsval)
| CallReassign (w : Hook.World) (id : Z) (assignee_id : jsval)
| CallAddNote (w : Hook.World) (id : Z) (body : string) (isPublic : jsval).

Section WithSession.

Variable BASE : string.
Variable authToken : string.

Definition perform (c : Call) : list Event :=
  match c with
  | CallRefresh srv params sched => Hook.refresh BASE authToken srv params sched
  | CallUpdateStatus w id status => Hook.updateStatus BASE authToken w id status
  | CallReassign w id a => Hook.reassign BASE authToken w id a
  | CallAddNote w id body pub => Hook.addNote BASE authToken w id body pub
  end.

(** Each call has ended when the next one is made. *)
Definition session (cs : list Call) : list Event := flat_map perform cs.

End WithSession.

End Session.

(* ================================================================== *)
(** ** Data of the scenarios                                           *)
(* ================================================================== *)

Module Scenario.
Import Gateway Trace.

Definition BASE : string := "http://localhost:8080".

Definition always (o : FetchOutcome) : nat -> FetchOutcome := fun _ => o.

Definition then_ (first : FetchOutcome) (next : nat -> FetchOutcome)
  : nat -> FetchOutcome :=
  fun i => match i with O => first | S j => next j end.

Definition ok_with (v : jsval) : FetchOutcome :=
  Responded {| status := 200; statusText := "OK"; text := Some "{}"; json := inr v |}.

Definition failing (st : Z) (line body : string) : FetchOutcome :=
  Responded {| status := st; statusText := line; text := Some body;
               json := inl "Unexpected token" |}.

(** 404 with an empty body. *)
Definition not_found_empty : Response :=
  {| status := 404; statusText := "Not Found"; text := Some "";
     json := inl "Unexpected end of JSON input" |}.

Definition window : jsval :=
  JObj [("start", JStr "2025-09-01T00:00:00Z"); ("end", JStr "2025-09-15T00:00:00Z")].

Definition ticket77 : jsval :=
  JObj [("id", JNum 77); ("assignee_id", JNum 1); ("group", JStr "AIMS")].

Definition listing : jsval := JObj [("rows", JArr [ticket77])].

(** A server on which both reads succeed. *)
Definition healthy : Hook.Server :=
  {| Hook.mw_answers := always (ok_with window);
     Hook.tk_answers := always (ok_with listing) |}.

(** A server whose meeting-window read fails with 500. *)
Definition window_down : Hook.Server :=
  {| Hook.mw_answers := always (failing 500 "Internal Server Error" "boom");
     Hook.tk_answers := always (ok_with listing) |}.

Definition in_order : list Read := [MeetingWindow; Tickets].

(** The write is accepted, the refresh succeeds. *)
Definition accepting : Hook.World :=
  {| Hook.write_answers := always (ok_with (JObj []));
     Hook.server := healthy;
     Hook.schedule := in_order |}.

(** The write is refused with 400. *)
Definition refusing : Hook.World :=
  {| Hook.write_answers := always (failing 400 "Bad Request" "invalid status");
     Hook.server := healthy;
     Hook.schedule := in_order |}.

Definition candidates : list TicketRow.Agent :=
  [ {| TicketRow.id := 1; TicketRow.name := "Ann"; TicketRow.group_id := JStr "AIMS" |};
    {| TicketRow.id := 2; TicketRow.name := "Bo"; TicketRow.group_id := JStr "Policy" |} ].

Definition exact_days : Fields := [("bucketed", JBool false)].

(** [Number] on the decimal numerals, the only strings the scenarios
    convert. *)
Definition Number_decimal (s : string) : jsval :=
  match NilZero.int_of_string s with
  | Some d => JNum (Z.of_int d)
  | None => JUndefined
  end.

(** A no-break space, U+00A0. *)
Definition nbsp : string := String (ascii_of_nat 194) (String (ascii_of_nat 160) "").

End Scenario.

(* ================================================================== *)
(** ** How far a refresh has come                                      *)
(* ================================================================== *)

Module Progress.
Import Gateway Trace Hook Observe.

Definition no_rejection (p : Pending) : Prop :=
  forall rd e, state_of p rd <> Done (Rejected e).

(** Before [Promise.all] settles no read has rejected and one of them is
    still in flight. *)
Definition well_formed (p : Pending) : Prop :=
  joined p = false ->
  no_rejection p /\ ~ (exists s1 s2, mwS p = Done s1 /\ tkS p = Done s2).

(** How a refresh stands after some of its fetches have ended. *)
Inductive Outcome (p : Pending) (evs : list Event) : Prop :=
| Waiting :
    joined p = false -> well_formed p -> setters evs = [] -> Outcome p evs
| Failed (rd : Read) (e : Thrown) :
    joined p = true -> state_of p rd = Done (Rejected e) ->
    setters evs = refresh_rejected e -> Outcome p evs
| Loaded (v w : jsval) :
    joined p = true ->
    mwS p = Done (Resolved v) -> tkS p = Done (Resolved w) ->
    setters evs = refresh_resolved v w -> Outcome p evs.

(** How many more fetches of read [rd] may have to end before it settles. *)
Definition remaining (p : Pending) (rd : Read) : nat :=
  match state_of p rd with
  | Done _ => 0
  | InFlight _ r => S r
  end.

(** [s] has seen the reads of [p] that have resolved. *)
Definition tracks (p : Pending) (s : Seen) : Prop :=
  (forall v, mwS p = Done (Resolved v) -> mw_resolved s = true) /\
  (forall v, tkS p = Done (Resolved v) -> tk_resolved s = true).

(** [h] with its error message replaced. *)
Definition with_err (h : State) (m : string) : State :=
  {| meetingWindow := meetingWindow h; rows := rows h;
     loading := loading h; err := m |}.

End Progress.

(* ================================================================== *)
(** ** How the reads of a refresh will settle                          *)
(* ================================================================== *)

Module Verdict.
Import Gateway Trace Hook.

(** The settlement read [rd] is heading for when the refresh stands at
    [p]: the one it has, or the one [req] reaches from the attempt in
    flight. *)
Definition verdict (srv : Server) (p : Pending) (rd : Read) : Settlement :=
  match state_of p rd with
  | Done s => s
  | InFlight i r => fst (req_from (answers srv rd) i r)
  end.

End Verdict.

(* ================================================================== *)
(** ** What the hook sends                                             *)
(* ================================================================== *)

Module Sent.
Import Gateway Trace Hook.

(** The headers every request of a session carries. *)
Definition session_headers (tok : string) : list (string * string) :=
  [("Content-Type", "application/json");
   ("X-Request-Source", CLIENT_TAG);
   ("X-Client-Version", CLIENT_VERSION)]
  ++ (if (tok =? "")%string then [] else [("Authorization", "Bearer " ++ tok)]).

(** The entries of a query that are named [bucketed]. *)
Definition is_bucketed (kv : string * string) : bool :=
  (fst kv =? "bucketed")%string.

(** The write a mutation makes, the world it runs against and the text
    it falls back on; a refresh makes none. *)
Definition write_of (tok : string) (c : Session.Call)
  : option ((string * Options) * World * string) :=
  match c with
  | Session.CallRefresh _ _ _ => None
  | Session.CallUpdateStatus w id status =>
      Some (patchTicket_call tok id (JObj [("status", status)]), w,
            "Failed to update status")
  | Session.CallReassign w id a =>
      Some (patchTicket_call tok id (JObj [("assignee_id", a)]), w,
            "Failed to reassign ticket")
  | Session.CallAddNote w id body pub =>
      Some (addComment_call tok id (JStr body) pub, w, "Failed to add note")
  end.

End Sent.

(* ================================================================== *)
(** ** The rest of [backendAPI.js] and [config.js]                     *)
(* ================================================================== *)

Module Backend.
Import Gateway.

(** [import.meta.env.VITE_BACKEND_BASE_URL || "http://localhost:8080"];
    a variable that is not set is the empty string here. *)
Definition DEFAULT_BACKEND_BASE_URL (VITE_BACKEND_BASE_URL : string) : string :=
  str_or VITE_BACKEND_BASE_URL "http://localhost:8080".

(** [setBackendBaseUrl(url)]: [BASE = url || BASE], on the [BASE] it
    finds; it returns the new [BASE]. An [url] that is not given is the
    empty string here. *)
Definition setBackendBaseUrl (BASE url : string) : string := str_or url BASE.

(** [getUsers(token)] *)
Definition getUsers_call (token : string) : string * Options :=
  ("/api/users", defaults token).

(** [runExport(token)] *)
Definition runExport_call (token : string) : string * Options :=
  ("/api/export",
   {| o_method := "POST"; o_body := JUndefined; o_token := token;
      o_retries := 1 |}).

(** [fetchFrontendToken()]: no request, [{ token: "" }]. *)
Definition fetchFrontendToken : jsval := JObj [("token", JStr "")].

End Backend.

(* ================================================================== *)
(** ** The rest of the row ([TicketRow.jsx])                           *)
(* ================================================================== *)

Module RowControls.
Import Gateway Trace TicketRow.

(** The [onChange] of the status [select]:
    [setStatus(s); await onStatus(t.id, s)]. Returns the status the row
    shows from then on and what calling [onStatus] does. *)
Definition onStatusChange (onStatus : Z -> jsval -> list Event) (t_id : Z)
    (s : string) : jsval * list Event :=
  (JStr s, onStatus t_id (JStr s)).

(** The values of the options of the assignee [select]: the placeholder,
    then one option per loaded user once loading is over. *)
Definition option_values (loadingUsers : bool) (users : list Agent)
  : list string :=
  "" :: (if loadingUsers then []
         else map (fun u => String_of_Z (id u)) users).

(** What the row holds of the list of users. *)
Record Loaded : Type := mkLoaded {
  users : jsval;
  loadingUsers : bool
}.

(** The [useState] initial values. *)
Definition not_loaded : Loaded := {| users := JArr []; loadingUsers := true |}.

(** The effect that loads the users, in [TicketRow] and in [TicketTable]:
    [if (!authToken) return;] then [getUsers], [setUsers(res.users || [])],
    errors only logged, and [setLoadingUsers(false)] in [finally].
    An [authToken] that is not passed is the empty string here. Returns
    the state the effect leaves and the requests it sends. *)
Definition load_users (BASE authToken : string) (srv : nat -> FetchOutcome)
    (st : Loaded) : Loaded * list Request :=
  if truthy (JStr authToken) then
    let (s, sent) := call BASE srv (Backend.getUsers_call authToken) in
    (match s with
     | Resolved (JObj fields) =>
         {| users := or_else (get "users" fields) (JArr []); loadingUsers := false |}
     | Resolved JUndefined | Resolved JNull | Rejected _ =>
         {| users := users st; loadingUsers := false |}
     | Resolved _ =>
         {| users := JArr []; loadingUsers := false |}
     end, sent)
  else (st, []).

(** [<select disabled={loadingUsers}>] *)
Definition select_disabled (st : Loaded) : bool := loadingUsers st.

End RowControls.

(* ================================================================== *)
(** ** The users hook ([useUsers.js])                                  *)
(* ================================================================== *)

Module UsersHook.
Import Gateway.

Record State : Type := mkState {
  users : jsval;
  loading : bool;
  err : string
}.

Definition initial : State := {| users := JArr []; loading := true; err := "" |}.

(** [data?.users] *)
Definition optional_users (data : jsval) : jsval :=
  match data with
  | JObj fields => get "users" fields
  | _ => JUndefined
  end.

(** [refresh()], from [setLoading(true); setErr("")] to the [finally]:
    the state it leaves and the requests it sends. *)
Definition refresh (BASE authToken : string) (srv : nat -> FetchOutcome)
    (h : State) : State * list Request :=
  let (s, sent) := call BASE srv (Backend.getUsers_call authToken) in
  (match s with
   | Resolved data =>
       {| users := or_else (optional_users data) (JArr []);
          loading := false; err := "" |}
   | Rejected e =>
       {| users := users h; loading := false;
          err := str_or (message_of e) "Failed to fetch users." |}
   end, sent).

End UsersHook.

(* ================================================================== *)
(** ** More of the dashboard ([Dashboard.jsx], [TicketTable.jsx])      *)
(* ================================================================== *)

Module DashboardView.
Import Gateway Trace.

Section Wiring.

Variable BASE : string.
Variable token : string.

(** [<TicketTable onStatus={updateStatus} ... />], handed on to each row:
    choosing a status in the row of ticket [t_id]. *)
Definition changeStatus (w : Hook.World) (t_id : Z) (s : string)
  : jsval * list Event :=
  RowControls.onStatusChange (Hook.updateStatus BASE token w) t_id s.

End Wiring.

(** [Dashboard] renders [<TicketTable ... />] without [authToken]. *)
Definition table_authToken (token : string) : string := "".

(** [TicketTable] renders [<TicketRow ... />] without [authToken]. *)
Definition row_authToken (table_token : string) : string := "".

(** What the dashboard reads of a ticket: [r.group] and [r.ageBucket],
    [None] when the field is missing. *)
Record Ticket : Type := mkTicket {
  group : option string;
  ageBucket : option string
}.

(** [String.prototype.toLowerCase] on ASCII letters. *)
Definition lower (c : ascii) : ascii :=
  if between 65 90 c then ascii_of_nat (nat_of_ascii c + 32) else c.

Fixpoint toLowerCase (s : string) : string :=
  match s with
  | EmptyString => ""
  | String c rest => String (lower c) (toLowerCase rest)
  end.

(** [s.includes(t)] *)
Fixpoint includes (s t : string) : bool :=
  String.prefix t s ||
  match s with
  | EmptyString => false
  | String _ rest => includes rest t
  end.

(** [(r.group || "")] *)
Definition group_text (r : Ticket) : string :=
  match group r with
  | Some g => g
  | None => ""
  end.

(** [filteredRows] *)
Definition filteredRows (rows : list Ticket) (selectedTab : string)
  : list Ticket :=
  if (selectedTab =? "All")%string then rows
  else filter (fun r => includes (toLowerCase (group_text r))
                                 (toLowerCase selectedTab)) rows.

(** The object [init] of [counts]: keys and numbers. *)
Definition Counts : Type := list (string * nat).

(** [init[k]], [undefined] being [0] under [|| 0]. *)
Fixpoint count_of (k : string) (m : Counts) : nat :=
  match m with
  | [] => 0%nat
  | (k', n) :: rest => if (k' =? k)%string then n else count_of k rest
  end.

(** [init[k] = v] *)
Fixpoint put (k : string) (v : nat) (m : Counts) : Counts :=
  match m with
  | [] => [(k, v)]
  | (k', n) :: rest =>
      if (k' =? k)%string then (k', v) :: rest else (k', n) :: put k v rest
  end.

(** The key [r.ageBucket] gives. *)
Definition bucket_key (r : Ticket) : string :=
  match ageBucket r with
  | Some b => b
  | None => "undefined"
  end.

Definition init : Counts :=
  [("Over 30 Days", 0%nat); ("Over 20 Days", 0%nat);
   ("Over 10 Days", 0%nat); ("Under 10 Days", 0%nat)].

(** [for (const r of filteredRows) init[r.ageBucket] = (init[r.ageBucket] || 0) + 1] *)
Definition counts (filtered : list Ticket) : Counts :=
  fold_left (fun m r => put (bucket_key r) (count_of (bucket_key r) m + 1) m)
    filtered init.

(** The numbers of the four pills. *)
Definition pills (c : Counts) : list nat :=
  [count_of "Over 30 Days" c; count_of "Over 20 Days" c;
   count_of "Over 10 Days" c; count_of "Under 10 Days" c].

(** The bucket of [r] is one of the four the pills show. *)
Definition known_bucket (r : Ticket) : bool :=
  existsb (fun k => (k =? bucket_key r)%string)
    ["Over 30 Days"; "Over 20 Days"; "Over 10 Days"; "Under 10 Days"].

(** What [Dashboard] holds besides the hook: its own [err] and
    [exporting]. *)
Record Own : Type := mkOwn {
  own_err : string;
  exporting : bool
}.

(** The state after the token effect: [fetchFrontendToken] cannot fail. *)
Definition own_initial : Own := {| own_err := ""; exporting := false |}.

(** The [onClick] of the export button, [srv] answering [runExport]: the
    state it leaves and the requests it sends. *)
Definition exportClick (BASE token : string) (d : Own)
    (srv : nat -> FetchOutcome) : Own * list Request :=
  let (s, sent) := call BASE srv (Backend.runExport_call token) in
  ({| own_err := match s with
                 | Resolved _ => own_err d
                 | Rejected _ => "Export failed. Please try again."
                 end;
      exporting := false |}, sent).

(** The text of the red banner, empty when there is none:
    [err || ticketErr]. *)
Definition banner (d : Own) (ticketErr : string) : string :=
  str_or (own_err d) ticketErr.

(** The groups of the rows, in lower case. *)
Definition lower_groups (rows : list Ticket) : list Ticket :=
  map (fun r => {| group := option_map toLowerCase (group r);
                   ageBucket := ageBucket r |}) rows.

End DashboardView.

(* ================================================================== *)
(** ** The notes editor, seen from outside                             *)
(* ================================================================== *)

Module NotesView.

(** The state a click on Add leaves. *)
Definition after_click (s : NotesEditor.State) : NotesEditor.State :=
  snd (NotesEditor.onAddClick s).

(** What a click on Add submits, if anything. *)
Definition submitted (s : NotesEditor.State) : option (string * bool) :=
  fst (NotesEditor.onAddClick s).

(** What is left of [s] past the sequence [strip] drops first, if [s]
    starts with one. *)
Definition front (p1 : ascii -> bool) (p2 : ascii -> ascii -> bool)
    (p3 : ascii -> ascii -> ascii -> bool) (s : string) : option string :=
  match s with
  | EmptyString => None
  | String c1 r1 =>
      if p1 c1 then Some r1
      else
        match r1 with
        | EmptyString => None
        | String c2 r2 =>
            if p2 c1 c2 then Some r2
            else
              match r2 with
              | EmptyString => None
              | String c3 r3 => if p3 c1 c2 c3 then Some r3 else None
              end
        end
  end.

End NotesView.

(* ================================================================== *)
(** ** The SDK helper ([services/zaf.js], the caching version)         *)
(* ================================================================== *)

Module Zaf.
Import Gateway.

(** What the page offers: whether [window.ZAFClient] is there, whether
    [init()] returns, and how [c.get("app")] settles. *)
Record Sdk : Type := mkSdk {
  available : bool;
  init_ok : bool;
  get_app : Settlement
}.

(** The module-level [client] (here: whether there is one) and
    [cachedParams] ([None] for [null]). *)
Record Cache : Type := mkCache {
  client : bool;
  cachedParams : option jsval
}.

Definition empty_cache : Cache := {| client := false; cachedParams := None |}.

(** The calls made to the SDK. *)
Inductive SdkCall : Type := Init | GetApp.

(** [zaf()]: whether it returns a client, the cache it leaves, the calls
    it makes. *)
Definition zaf (c : Cache) (sdk : Sdk) : bool * Cache * list SdkCall :=
  if client c then (true, c, [])
  else if negb (available sdk) then (false, c, [])
  else if init_ok sdk
       then (true, {| client := true; cachedParams := cachedParams c |}, [Init])
       else (false, c, [Init]).

(** [const { app } = await c.get("app"); app?.parameters || {}] on the
    value [c.get] resolved with; [None] when the destructuring throws. *)
Definition parameters_of (answer : jsval) : option jsval :=
  match answer with
  | JUndefined | JNull => None
  | JObj fields =>
      Some (or_else (match get "app" fields with
                     | JObj app => get "parameters" app
                     | _ => JUndefined
                     end) (JObj []))
  | _ => Some (JObj [])
  end.

(** [getAppParams()] past the test of [cachedParams]. *)
Definition look_up (c : Cache) (sdk : Sdk) : jsval * Cache * list SdkCall :=
  let '(has, c1, calls) := zaf c sdk in
  let cached p := {| client := client c1; cachedParams := Some p |} in
  if has then
    match get_app sdk with
    | Resolved answer =>
        match parameters_of answer with
        | Some params => (params, cached params, (calls ++ [GetApp])%list)
        | None => (JObj [], cached (JObj []), (calls ++ [GetApp])%list)
        end
    | Rejected _ => (JObj [], cached (JObj []), (calls ++ [GetApp])%list)
    end
  else (JObj [], cached (JObj []), calls).

(** [getAppParams()]: the parameters it returns, the cache it leaves, the
    calls it makes. *)
Definition getAppParams (c : Cache) (sdk : Sdk) : jsval * Cache * list SdkCall :=
  match cachedParams c with
  | Some p => if truthy p then (p, c, []) else look_up c sdk
  | None => look_up c sdk
  end.

(** [resetZafCache()] *)
Definition resetZafCache (c : Cache) : Cache := empty_cache.

End Zaf.

(* ================================================================== *)
(** ** The preview page ([public/assets/index.js], the bootstrap)      *)
(* ================================================================== *)

Module Preview.
Import Gateway.

(** A DOM element: its text and its class list. *)
Record Element : Type := mkElement {
  textContent : string;
  classes : list string
}.

(** [el.classList.remove(c)] *)
Definition classList_remove (c : string) (l : list string) : list string :=
  filter (fun x => negb (x =? c)%string) l.

(** [el.classList.add(c)] *)
Definition classList_add (c : string) (l : list string) : list string :=
  if existsb (fun x => (x =? c)%string) l then l else (l ++ [c])%list.

(** [s.replace(/\/$/, "")] *)
Fixpoint strip_trailing_slash (s : string) : string :=
  match s with
  | EmptyString => ""
  | String c EmptyString => if Ascii.eqb c "/" then "" else s
  | String c rest => String c (strip_trailing_slash rest)
  end.

(** Whether [s] ends with a slash. *)
Fixpoint ends_with_slash (s : string) : bool :=
  match s with
  | EmptyString => false
  | String c EmptyString => Ascii.eqb c "/"
  | String _ rest => ends_with_slash rest
  end.

(** The element [pingHealth] leaves: its text, [muted] removed, [cls]
    added. *)
Definition show (text cls : string) (el : Element) : Element :=
  {| textContent := text;
     classes := classList_add cls (classList_remove "muted" (classes el)) |}.

(** The request of [pingHealth]. *)
Definition health_request (base : string) (apiKey : jsval) : Request :=
  {| url := strip_trailing_slash base ++ "/health";
     method := "GET";
     headers :=
       [("Content-Type", "application/json"); ("X-Request-Source", "ZAF-Assets")]
       ++ (if truthy apiKey then [("Authorization", "Bearer " ++ ToString apiKey)]
           else []);
     body := None |}.

(** The text shown for the data of a healthy answer:
    [`${data.status || "ok"}`]; [None] when [data.status] throws. *)
Definition health_text (data : jsval) : option string :=
  match data with
  | JUndefined | JNull => None
  | JObj fields => Some (ToString (or_else (get "status" fields) (JStr "ok")))
  | _ => Some "ok"
  end.

(** [pingHealth(baseUrl, apiKey)] on the element [elHealth], [answer]
    being how the one [fetch] ends: the element it leaves and the requests
    it sends. *)
Definition pingHealth (baseUrl apiKey : jsval) (answer : FetchOutcome)
    (el : Element) : Element * list Request :=
  if truthy baseUrl then
    match baseUrl with
    | JStr base =>
        (match answer with
         | Responded r =>
             if ok r then
               match json r with
               | inr data =>
                   match health_text data with
                   | Some t => show t "ok" el
                   | None => show "error" "err" el
                   end
               | inl _ => show "error" "err" el
               end
             else show "error" "err" el
         | NetworkError _ | TimedOut _ => show "error" "err" el
         end, [health_request base apiKey])
    | _ => (show "error" "err" el, [])
    end
  else (show "(missing BACKEND_BASE_URL)" "err" el, []).

(** Where [readParams] looks: what [client.metadata()] gives ([None] when
    there is no client), the query of the page, and how the fetch of
    [settings.json] ends. *)
Record Sources : Type := mkSources {
  metadata : option Settlement;
  query : Fields;
  settings_json : FetchOutcome
}.

(** [{ BACKEND_BASE_URL: o.a || "", API_KEY: o.b || "" }] *)
Definition pick (a b : string) (o : Fields) : jsval * jsval :=
  (or_else (get a o) (JStr ""), or_else (get b o) (JStr "")).

(** The own fields of a value used as an object: none for a primitive. *)
Definition fields_of (v : jsval) : Fields :=
  match v with
  | JObj fields => fields
  | _ => []
  end.

(** Steps 2 to 4 of [readParams]: the query, [settings.json], nothing.
    The boolean tells whether [settings.json] was fetched. *)
Definition readParams_fallback (src : Sources) : (jsval * jsval) * bool :=
  if truthy (or_else (get "backend" (query src)) (get "apikey" (query src)))
  then (pick "backend" "apikey" (query src), false)
  else
    (match settings_json src with
     | Responded r =>
         if ok r then
           match json r with
           | inr JNull | inr JUndefined => (JStr "", JStr "")
           | inr cfg => pick "BACKEND_BASE_URL" "API_KEY" (fields_of cfg)
           | inl _ => (JStr "", JStr "")
           end
         else (JStr "", JStr "")
     | _ => (JStr "", JStr "")
     end, true).

(** [meta && meta.settings ? meta.settings : {}], as fields. *)
Definition settings_of (meta : jsval) : Fields :=
  match meta with
  | JObj m => if truthy (get "settings" m)
              then fields_of (get "settings" m) else []
  | _ => []
  end.

(** [readParams()] *)
Definition readParams (src : Sources) : (jsval * jsval) * bool :=
  match metadata src with
  | Some (Resolved meta) =>
      (pick "BACKEND_BASE_URL" "API_KEY" (settings_of meta), false)
  | Some (Rejected _) | None => readParams_fallback src
  end.

(** The end of [init]: [readParams], then [pingHealth] on what it
    returned. *)
Definition init_health (src : Sources) (answer : FetchOutcome) (el : Element)
  : Element * list Request :=
  let '(base, key, _) := readParams src in
  pingHealth base key answer el.

End Preview.

(* ================================================================== *)
(** ** Properties of the request helper                                *)
(* ================================================================== *)

Module GatewayFacts.
Import Gateway.

Lemma str_or_nonempty (s d : string) : d <> "" -> str_or s d <> "".
Proof.
  unfold str_or. intros Hd.
  destruct (String.eqb_spec s ""); assumption.
Qed.

Lemma str_or_keeps (s d : string) : s <> "" -> str_or s d = s.
Proof.
  unfold str_or. intros Hs.
  destruct (String.eqb_spec s ""); [contradiction | reflexivity].
Qed.

(** Every call sends at least one request. *)
Lemma req_from_attempts srv i retries :
  (1 <= snd (req_from srv i retries))%nat.
Proof.
  revert i. induction retries as [|r IH]; intros i; simpl.
  - destruct (attempt (srv i)); simpl; lia.
  - destruct (attempt (srv i)) as [v|e]; simpl; [lia|].
    destruct (transient e); simpl; [|lia].
    specialize (IH (S i)). destruct (req_from srv (S i) r); simpl in *; lia.
Qed.

(** ... and at most one more than its retry budget. *)
Lemma req_from_bounded srv i retries :
  (snd (req_from srv i retries) <= S retries)%nat.
Proof.
  revert i. induction retries as [|r IH]; intros i; simpl.
  - destruct (attempt (srv i)); simpl; lia.
  - destruct (attempt (srv i)) as [v|e]; simpl; [lia|].
    destruct (transient e); simpl; [|lia].
    specialize (IH (S i)). destruct (req_from srv (S i) r); simpl in *; lia.
Qed.

(** [req_from] is [req_step] taken until it settles. *)
Lemma req_from_step srv i retries :
  req_from srv i retries =
  match req_step retries (srv i) with
  | Settle s => (s, 1%nat)
  | Again r => let (s, n) := req_from srv (S i) r in (s, S n)
  end.
Proof.
  unfold req_step. destruct retries as [|r]; simpl;
    destruct (attempt (srv i)) as [v|e]; try reflexivity.
  destruct (transient e); reflexivity.
Qed.

Lemma transient_status (st : Z) (m : string) :
  transient (Failure st m) = true <-> st = 502 \/ st = 503 \/ st = 504.
Proof.
  unfold transient; simpl. rewrite !orb_true_iff, !Z.eqb_eq. tauto.
Qed.

Lemma not_ok_of_status (r : Response) :
  status r < 200 \/ 300 <= status r -> ok r = false.
Proof.
  unfold ok. intros H. apply andb_false_iff.
  rewrite Z.leb_gt, Z.leb_gt. lia.
Qed.

(** C2. With the default budget of one retry: a first answer of status
    502, 503 or 504 is followed by exactly one more attempt, whose result
    is the result of the call; a first answer of status 4xx, a timeout and
    a network error end the call at once with that failure; two 503 in a
    row end the call with the second failure after exactly two attempts. *)
Theorem retry_law (BASE : string) (srv : nat -> FetchOutcome)
    (path : string) (opts : Options) :
  o_retries opts = 1%nat ->
  (forall r, srv 0%nat = Responded r ->
     status r = 502 \/ status r = 503 \/ status r = 504 ->
     req BASE srv path opts
       = (attempt (srv 1%nat),
          [request_of BASE path opts; request_of BASE path opts]))
  /\ (forall r, srv 0%nat = Responded r -> 400 <= status r <= 499 ->
        exists m,
          req BASE srv path opts
            = (Rejected (Failure (status r) m), [request_of BASE path opts]))
  /\ (forall m, srv 0%nat = TimedOut m ->
        req BASE srv path opts
          = (Rejected (Raised AbortError m), [request_of BASE path opts]))
  /\ (forall m, srv 0%nat = NetworkError m ->
        req BASE srv path opts
          = (Rejected (Raised TypeError m), [request_of BASE path opts]))
  /\ (forall r1 r2, srv 0%nat = Responded r1 -> srv 1%nat = Responded r2 ->
        status r1 = 503 -> status r2 = 503 ->
        exists m,
          attempt (srv 1%nat) = Rejected (Failure 503 m) /\
          req BASE srv path opts
            = (Rejected (Failure 503 m),
               [request_of BASE path opts; request_of BASE path opts])).
Proof.
  intros Hdef.
  assert (Hretry : forall r, srv 0%nat = Responded r ->
            status r = 502 \/ status r = 503 \/ status r = 504 ->
            req BASE srv path opts
              = (attempt (srv 1%nat),
                 [request_of BASE path opts; request_of BASE path opts])).
  { intros r H0 Hst. unfold req. rewrite Hdef. simpl. rewrite H0; simpl.
    rewrite not_ok_of_status by lia.
    replace (transient _) with true
      by (symmetry; apply transient_status; exact Hst).
    destruct (attempt (srv 1%nat)); reflexivity. }
  repeat split.
  - exact Hretry.
  - intros r H0 Hst. unfold req. rewrite Hdef. simpl. rewrite H0; simpl.
    rewrite not_ok_of_status by lia.
    destruct (transient _) eqn:Ht.
    + apply transient_status in Ht. lia.
    + eexists; reflexivity.
  - intros m H0. unfold req. rewrite Hdef. simpl. rewrite H0; reflexivity.
  - intros m H0. unfold req. rewrite Hdef. simpl. rewrite H0; reflexivity.
  - intros r1 r2 H0 H1 Hs1 Hs2.
    rewrite (Hretry r1 H0) by auto.
    rewrite H1; simpl. rewrite not_ok_of_status by lia.
    rewrite Hs2. eexists; split; reflexivity.
Qed.

Lemma attempt_not_ok (r : Response) :
  ok r = false ->
  attempt (Responded r) =
  Rejected (Failure (status r)
              (str_or (match text r with Some t => t | None => statusText r end)
                      "Request failed")).
Proof. intros H. simpl. rewrite H. reflexivity. Qed.

(** The last attempt of a call decides how it settles. *)
Lemma req_from_last srv retries : forall i,
  fst (req_from srv i retries) =
  attempt (srv (i + snd (req_from srv i retries) - 1)%nat).
Proof.
  induction retries as [|r IH]; intros i; simpl.
  - destruct (attempt (srv i)) eqn:E; simpl;
      replace (i + 1 - 1)%nat with i by lia; now rewrite E.
  - destruct (attempt (srv i)) as [v|e] eqn:E; simpl.
    + replace (i + 1 - 1)%nat with i by lia. now rewrite E.
    + destruct (transient e); simpl.
      * specialize (IH (S i)).
        pose proof (req_from_attempts srv (S i) r) as Hn.
        destruct (req_from srv (S i) r) as [s n]; simpl in *.
        rewrite IH. f_equal. f_equal. lia.
      * replace (i + 1 - 1)%nat with i by lia. now rewrite E.
Qed.

Lemma req_sent BASE srv path opts :
  snd (req BASE srv path opts) =
  repeat (request_of BASE path opts) (snd (req_from srv 0 (o_retries opts))).
Proof. unfold req. destruct (req_from srv 0 (o_retries opts)); reflexivity. Qed.

Lemma req_settles BASE srv path opts :
  fst (req BASE srv path opts) = fst (req_from srv 0 (o_retries opts)).
Proof. unfold req. destruct (req_from srv 0 (o_retries opts)); reflexivity. Qed.

(** C6, as the code has it. When the last attempt of a call is answered
    by a non-success response, the call fails with an error that carries
    the status of that response and a detail text: the body text when it
    can be read and is not empty; the status text when the body cannot be
    read and the status text is not empty; the fixed text
    [Request failed] in the remaining cases. *)
Theorem failure_detail (BASE : string) (srv : nat -> FetchOutcome)
    (path : string) (opts : Options) (r : Response) :
  srv (List.length (snd (req BASE srv path opts)) - 1)%nat = Responded r ->
  ok r = false ->
  exists d,
    fst (req BASE srv path opts) = Rejected (Failure (status r) d)
    /\ (forall b, text r = Some b -> b <> "" -> d = b)
    /\ (text r = None -> statusText r <> "" -> d = statusText r)
    /\ (text r = Some "" \/ (text r = None /\ statusText r = "") ->
        d = "Request failed").
Proof.
  intros Hlast Hok.
  rewrite req_sent, repeat_length in Hlast.
  rewrite req_settles, req_from_last. simpl. rewrite Hlast.
  rewrite (attempt_not_ok r Hok).
  eexists; split; [reflexivity|]. repeat split.
  - intros b Hb Hne. rewrite Hb. now apply str_or_keeps.
  - intros Hn Hne. rewrite Hn. now apply str_or_keeps.
  - intros [Hb | [Hn Hs]].
    + rewrite Hb. reflexivity.
    + rewrite Hn, Hs. reflexivity.
Qed.


(** *** The query of [getTickets] *)

Lemma append_assoc (a b c : string) : (a ++ b) ++ c = a ++ (b ++ c).
Proof. induction a as [|x a IH]; simpl; [reflexivity | now rewrite IH]. Qed.









(** C6 as stated fails: a 404 whose body is empty. The detail of the
    error is the fixed text, which is neither the body text nor the status
    text. *)
Lemma empty_body_detail_is_fixed_text :
  ok Scenario.not_found_empty = false
  /\ text Scenario.not_found_empty = Some ""
  /\ statusText Scenario.not_found_empty = "Not Found"
  /\ req Scenario.BASE (Scenario.always (Responded Scenario.not_found_empty))
       "/api/tickets/77" (defaults "")
     = (Rejected (Failure 404 "Request failed"),
        [request_of Scenario.BASE "/api/tickets/77" (defaults "")]).
Proof. repeat split. Qed.

Lemma retry_law_witness :
  req Scenario.BASE
    (Scenario.then_ (Scenario.failing 503 "Service Unavailable" "busy")
       (Scenario.always (Scenario.ok_with (JObj []))))
    "/api/tickets/77" (snd (patchTicket_call "" 77 (JObj [("status", JStr "solved")])))
  = (Resolved (JObj []),
     [request_of_call Scenario.BASE
        (patchTicket_call "" 77 (JObj [("status", JStr "solved")]));
      request_of_call Scenario.BASE
        (patchTicket_call "" 77 (JObj [("status", JStr "solved")]))]).
Proof.
  apply (proj1 (retry_law Scenario.BASE
           (Scenario.then_ (Scenario.failing 503 "Service Unavailable" "busy")
              (Scenario.always (Scenario.ok_with (JObj []))))
           "/api/tickets/77"
           (snd (patchTicket_call "" 77 (JObj [("status", JStr "solved")])))
           eq_refl)
           {| status := 503; statusText := "Service Unavailable";
              text := Some "busy"; json := inl "Unexpected token" |}).
  - reflexivity.
  - simpl. auto.
Defined.

Lemma failure_detail_witness :
  exists d,
    fst (req Scenario.BASE (Scenario.always (Scenario.failing 400 "Bad Request" "invalid status"))
           "/api/tickets/77" (defaults ""))
      = Rejected (Failure 400 d)
    /\ (forall b, Some "invalid status" = Some b -> b <> "" -> d = b)
    /\ (Some "invalid status" = None -> "Bad Request" <> "" -> d = "Bad Request")
    /\ (Some "invalid status" = Some "" \/ (Some "invalid status" = None /\ "Bad Request" = "") ->
        d = "Request failed").
Proof.
  apply (failure_detail Scenario.BASE
           (Scenario.always (Scenario.failing 400 "Bad Request" "invalid status"))
           "/api/tickets/77" (defaults "")
           {| status := 400; statusText := "Bad Request";
              text := Some "invalid status"; json := inl "Unexpected token" |}).
  - reflexivity.
  - reflexivity.
Defined.


End GatewayFacts.

(* ================================================================== *)
(** ** Properties of the hook                                          *)
(* ================================================================== *)

Module HookFacts.
Import Gateway Trace Hook Observe Progress.

(** *** Replaying events *)

Lemma replay_app (h : State) (a b : list Event) :
  replay h (a ++ b) = replay (replay h a) b.
Proof. apply fold_left_app. Qed.

Lemma replay_setters (evs : list Event) : forall h,
  replay h evs = replay h (setters evs).
Proof.
  induction evs as [|e evs IH]; intros h; [reflexivity|].
  destruct e; simpl; apply IH.
Qed.

Lemma setters_app (a b : list Event) :
  setters (a ++ b) = (setters a ++ setters b)%list.
Proof. apply filter_app. Qed.

Lemma setters_fetches (l : list Request) : setters (map Fetch l) = [].
Proof. induction l; simpl; auto. Qed.

Lemma refresh_message_nonempty (e : Thrown) : refresh_message e <> "".
Proof.
  assert (Hs : String_of_thrown e <> "").
  { destruct e as [st m | n m]; simpl; [discriminate|].
    destruct (m =? "")%string; destruct n; discriminate. }
  unfold refresh_message.
  destruct (status_of e) as [st|].
  - destruct (truthy (JNum st)).
    + discriminate.
    + now apply GatewayFacts.str_or_nonempty.
  - now apply GatewayFacts.str_or_nonempty.
Qed.

(** *** The two reads of a refresh *)

Section Runs.

Variable srv : Server.
Variable rq : Read -> Request.

Lemma state_of_with_same p rd st j :
  state_of (with_state p rd st j) rd = st.
Proof. destruct rd; reflexivity. Qed.

Lemma state_of_with_other p rd st j :
  state_of (with_state p rd st j) (other rd) = state_of p (other rd).
Proof. destruct rd; reflexivity. Qed.

Lemma joined_with p rd st j : joined (with_state p rd st j) = j.
Proof. destruct rd; reflexivity. Qed.

Lemma read_cases (rd rd' : Read) : rd' = rd \/ rd' = other rd.
Proof. destruct rd, rd'; auto. Qed.

(** A settled read stays as it is. *)
Lemma step_stable p rd rd' s :
  state_of p rd' = Done s -> state_of (fst (step srv rq p rd)) rd' = Done s.
Proof.
  intros H. unfold step.
  destruct (state_of p rd) as [i r|s0] eqn:E; [|exact H].
  assert (rd' = other rd) as ->.
  { destruct (read_cases rd rd') as [-> | ->]; [congruence | reflexivity]. }
  destruct (req_step r (answers srv rd i)) as [r'|s'].
  - simpl. now rewrite state_of_with_other.
  - destruct (react rd s' (state_of p (other rd)) (joined p)) as [evs j].
    simpl. now rewrite state_of_with_other.
Qed.

Lemma run_stable sched : forall p rd s,
  state_of p rd = Done s -> state_of (fst (run srv rq p sched)) rd = Done s.
Proof.
  induction sched as [|x rest IH]; intros p rd s H; [exact H|].
  simpl. pose proof (step_stable p x rd s H) as H1.
  destruct (step srv rq p x) as [p1 e1].
  specialize (IH p1 rd s H1).
  destruct (run srv rq p1 rest) as [p2 e2]. exact IH.
Qed.

(** A read that is seen to settle has settled that way. *)
Lemma step_settled p rd rd' s :
  In (Settled rd' s) (snd (step srv rq p rd)) ->
  state_of (fst (step srv rq p rd)) rd' = Done s.
Proof.
  unfold step.
  destruct (state_of p rd) as [i r|s0] eqn:E; [|intros []].
  destruct (req_step r (answers srv rd i)) as [r'|s'].
  - simpl. intros [H|[]]. discriminate.
  - unfold react.
    destruct (joined p).
    + simpl. intros [H|[]]. injection H as <- <-. apply state_of_with_same.
    + destruct s' as [v|e].
      * destruct (state_of p (other rd)) as [i' r'|[w|e']]; simpl.
        -- intros [H|[]]. injection H as <- <-. apply state_of_with_same.
        -- intros [H|H].
           ++ injection H as <- <-. apply state_of_with_same.
           ++ exfalso. destruct rd; simpl in H;
                [destruct w | destruct v]; simpl in H;
                repeat (destruct H as [H|H]; [discriminate|]); exact H.
        -- intros [H|[]]. injection H as <- <-. apply state_of_with_same.
      * simpl. intros [H|[H|[H|[]]]]; try discriminate.
        injection H as <- <-. apply state_of_with_same.
Qed.

Lemma run_settled sched : forall p rd s,
  In (Settled rd s) (snd (run srv rq p sched)) ->
  state_of (fst (run srv rq p sched)) rd = Done s.
Proof.
  induction sched as [|x rest IH]; intros p rd s; [intros []|].
  simpl.
  pose proof (step_settled p x rd s) as H1.
  destruct (step srv rq p x) as [p1 e1]. simpl in H1.
  pose proof (run_stable rest p1 rd s) as H2.
  specialize (IH p1 rd s).
  destruct (run srv rq p1 rest) as [p2 e2]. simpl in *.
  intros H. apply in_app_or in H as [H|H]; auto.
Qed.

(** Once [Promise.all] has settled, no setter is called any more. *)
Lemma step_joined p rd :
  joined p = true ->
  joined (fst (step srv rq p rd)) = true /\
  setters (snd (step srv rq p rd)) = [].
Proof.
  intros Hj. unfold step.
  destruct (state_of p rd) as [i r|s0]; [|now split].
  destruct (req_step r (answers srv rd i)) as [r'|s'].
  - simpl. now rewrite joined_with.
  - unfold react. rewrite Hj. simpl. now rewrite joined_with.
Qed.

Lemma run_joined sched : forall p,
  joined p = true ->
  joined (fst (run srv rq p sched)) = true /\
  setters (snd (run srv rq p sched)) = [].
Proof.
  induction sched as [|x rest IH]; intros p Hj; [now split|].
  simpl. destruct (step_joined p x Hj) as [H1 H2].
  destruct (step srv rq p x) as [p1 e1]. simpl in *.
  destruct (IH p1 H1) as [H3 H4].
  destruct (run srv rq p1 rest) as [p2 e2]. simpl in *.
  split; [exact H3|]. now rewrite setters_app, H2, H4.
Qed.

Lemma setters_settled rd s l : setters (Settled rd s :: l) = setters l.
Proof. reflexivity. Qed.

Lemma setters_resolved v w :
  setters (refresh_resolved v w) = refresh_resolved v w.
Proof. destruct w; reflexivity. Qed.

Lemma run_outcome sched : forall p,
  well_formed p -> joined p = false ->
  Outcome (fst (run srv rq p sched)) (snd (run srv rq p sched)).
Proof.
  induction sched as [|x rest IH]; intros p Hwf Hj.
  { now apply Waiting. }
  simpl. unfold step.
  destruct (state_of p x) as [i r|s0] eqn:Ex.
  2:{ specialize (IH p Hwf Hj).
      destruct (run srv rq p rest) as [p2 e2]. exact IH. }
  destruct (req_step r (answers srv x i)) as [r'|s'].
  - (* a retry goes out *)
    assert (Hwf1 : well_formed (with_state p x (InFlight (S i) r') (joined p))).
    { intros _. destruct (Hwf Hj) as [Hn Hb]. split.
      - intros rd e. destruct (read_cases x rd) as [-> | ->].
        + rewrite state_of_with_same. discriminate.
        + rewrite state_of_with_other. apply Hn.
      - intros (s1 & s2 & H1 & H2). destruct x; simpl in *; discriminate. }
    specialize (IH _ Hwf1). rewrite joined_with in IH. specialize (IH Hj).
    destruct (run srv rq _ rest) as [p2 e2]. simpl in *.
    destruct IH as [a b c | rd e a b c | v w a b c d];
      [apply Waiting | apply (Failed _ _ rd e) | apply (Loaded _ _ v w)]; auto.
  - unfold react. rewrite Hj.
    destruct s' as [v|e].
    + destruct (state_of p (other x)) as [i' r'|[w|e']] eqn:Eo.
      * (* the other read is still in flight *)
        assert (Hwf1 : well_formed (with_state p x (Done (Resolved v)) false)).
        { intros _. destruct (Hwf Hj) as [Hn Hb]. split.
          - intros rd e. destruct (read_cases x rd) as [-> | ->].
            + rewrite state_of_with_same. discriminate.
            + rewrite state_of_with_other. apply Hn.
          - intros (s1 & s2 & H1 & H2).
            destruct x; simpl in *; congruence. }
        specialize (IH _ Hwf1). rewrite joined_with in IH.
        specialize (IH eq_refl).
        destruct (run srv rq _ rest) as [p2 e2]. simpl in *.
        destruct IH as [a b c | rd e a b c | v' w' a b c d];
          [apply Waiting | apply (Failed _ _ rd e) | apply (Loaded _ _ v' w')];
          auto.
      * (* both have resolved *)
        set (p1 := with_state p x (Done (Resolved v)) true).
        assert (Hj1 : joined p1 = true) by apply joined_with.
        destruct (run_joined rest p1 Hj1) as [Hj2 Hs2].
        assert (Hx : state_of p1 x = Done (Resolved v))
          by apply state_of_with_same.
        assert (Ho : state_of p1 (other x) = Done (Resolved w)).
        { unfold p1. now rewrite state_of_with_other. }
        apply (run_stable rest) in Hx. apply (run_stable rest) in Ho.
        destruct (run srv rq p1 rest) as [p2 e2]. cbn [fst snd] in *.
        destruct x; cbn [state_of other] in Hx, Ho.
        -- apply (Loaded _ _ v w); auto.
           rewrite setters_app, setters_settled, setters_resolved, Hs2.
           now rewrite app_nil_r.
        -- apply (Loaded _ _ w v); auto.
           rewrite setters_app, setters_settled, setters_resolved, Hs2.
           now rewrite app_nil_r.
      * exfalso. destruct (Hwf Hj) as [Hn _]. exact (Hn _ _ Eo).
    + (* the first rejection *)
      set (p1 := with_state p x (Done (Rejected e)) true).
      assert (Hj1 : joined p1 = true) by apply joined_with.
      destruct (run_joined rest p1 Hj1) as [Hj2 Hs2].
      assert (Hx : state_of p1 x = Done (Rejected e))
        by apply state_of_with_same.
      apply (run_stable rest) in Hx.
      destruct (run srv rq p1 rest) as [p2 e2]. cbn [fst snd] in *.
      apply (Failed _ _ x e); auto.
      rewrite setters_app, setters_settled, Hs2. reflexivity.
Qed.

(** Every fetch that ends brings its read closer to settling. *)
Lemma step_progress p rd :
  (remaining (fst (step srv rq p rd)) rd <= pred (remaining p rd))%nat.
Proof.
  unfold remaining, step.
  destruct (state_of p rd) as [i r|s0] eqn:E.
  - unfold req_step.
    destruct (attempt (answers srv rd i)) as [v|e].
    + destruct (react rd (Resolved v) _ _) as [evs j]. simpl.
      rewrite state_of_with_same. lia.
    + destruct r as [|r'].
      * destruct (react rd (Rejected e) _ _) as [evs j]. simpl.
        rewrite state_of_with_same. lia.
      * destruct (transient e).
        -- simpl. rewrite state_of_with_same. simpl. lia.
        -- destruct (react rd (Rejected e) _ _) as [evs j]. simpl.
           rewrite state_of_with_same. lia.
  - simpl. rewrite E. lia.
Qed.

Lemma step_elsewhere p rd :
  state_of (fst (step srv rq p rd)) (other rd) = state_of p (other rd).
Proof.
  unfold step.
  destruct (state_of p rd) as [i r|s0]; [|reflexivity].
  destruct (req_step r (answers srv rd i)) as [r'|s'].
  - simpl. apply state_of_with_other.
  - destruct (react rd s' _ _) as [evs j]. simpl. apply state_of_with_other.
Qed.

Lemma run_progress sched : forall p rd,
  (remaining p rd <= deliveries rd sched)%nat ->
  remaining (fst (run srv rq p sched)) rd = 0%nat.
Proof.
  induction sched as [|x rest IH]; intros p rd H.
  { simpl in *. unfold deliveries in H. simpl in H. lia. }
  simpl.
  pose proof (step_progress p x) as Hp.
  pose proof (step_elsewhere p x) as He.
  destruct (step srv rq p x) as [p1 e1]. simpl in Hp, He.
  specialize (IH p1 rd).
  destruct (run srv rq p1 rest) as [p2 e2]. simpl in *.
  apply IH. unfold deliveries in *. simpl in H.
  destruct (read_cases x rd) as [-> | ->].
  - replace (same_read x x) with true in H by (destruct x; reflexivity).
    simpl in H. lia.
  - replace (same_read (other x) x) with false in H by (destruct x; reflexivity).
    unfold remaining in *. rewrite He. exact H.
Qed.

(** *** When loading is cleared *)

Lemma cleared_in_time_app a : forall s b,
  cleared_in_time s (a ++ b) =
  cleared_in_time s a && cleared_in_time (fold_left note a s) b.
Proof.
  induction a as [|e a IH]; intros s b; [reflexivity|].
  simpl. rewrite IH. now rewrite andb_assoc.
Qed.

Lemma cleared_resolved s v w :
  cleared_in_time s (refresh_resolved v w) = may_clear s /\
  fold_left note (refresh_resolved v w) s = s.
Proof. destruct w; simpl; rewrite ?andb_true_r; auto. Qed.

Lemma step_cleared p rd s :
  tracks p s ->
  cleared_in_time s (snd (step srv rq p rd)) = true /\
  tracks (fst (step srv rq p rd)) (fold_left note (snd (step srv rq p rd)) s).
Proof.
  intros [Hm Ht]. unfold step.
  destruct (state_of p rd) as [i r|s0] eqn:E; [|now split].
  destruct (req_step r (answers srv rd i)) as [r'|s'].
  - split; [reflexivity|].
    destruct rd; simpl in *; split; intros v H; eauto; discriminate.
  - unfold react. destruct (joined p).
    + split; [reflexivity|].
      destruct rd, s'; simpl in *; split; intros v' H; eauto; discriminate.
    + destruct s' as [v|e].
      * destruct (state_of p (other rd)) as [i' r'|[w|e']] eqn:Eo.
        -- split; [reflexivity|].
           destruct rd; simpl in *; split; intros v' H; eauto.
        -- destruct rd; cbn [other state_of] in Eo; cbn [fst snd].
           ++ cbn [cleared_in_time fold_left].
              destruct (cleared_resolved (note s (Settled MeetingWindow (Resolved v))) v w)
                as [-> ->].
              cbn [andb]. unfold may_clear. simpl.
              rewrite (Ht w Eo). split; [reflexivity|].
              split; intros; simpl; eauto.
           ++ cbn [cleared_in_time fold_left].
              destruct (cleared_resolved (note s (Settled Tickets (Resolved v))) w v)
                as [-> ->].
              cbn [andb]. unfold may_clear. simpl.
              rewrite (Hm w Eo). split; [reflexivity|].
              split; intros; simpl; eauto.
        -- split; [reflexivity|].
           destruct rd; simpl in *; split; intros v' H; eauto.
      * split.
        -- destruct rd; simpl; unfold may_clear; simpl;
             now rewrite orb_true_r.
        -- destruct rd; simpl in *; split; intros v' H; eauto; discriminate.
Qed.

Lemma run_cleared sched : forall p s,
  tracks p s -> cleared_in_time s (snd (run srv rq p sched)) = true.
Proof.
  induction sched as [|x rest IH]; intros p s H; [reflexivity|].
  simpl. destruct (step_cleared p x s H) as [H1 H2].
  destruct (step srv rq p x) as [p1 e1]. simpl in *.
  specialize (IH p1 _ H2).
  destruct (run srv rq p1 rest) as [p2 e2]. simpl in *.
  now rewrite cleared_in_time_app, H1, IH.
Qed.

End Runs.

(** What the flags of [Seen] stand for. *)
Lemma seen_mw pre : forall s,
  mw_resolved (fold_left note pre s) = true ->
  mw_resolved s = true \/ exists v, In (Settled MeetingWindow (Resolved v)) pre.
Proof.
  induction pre as [|e pre IH]; intros s H; [now left|].
  simpl in H. destruct (IH _ H) as [H1 | [v H1]].
  - destruct e as [| | | | | | |[] []]; simpl in H1; auto.
    right. eexists. left. reflexivity.
  - right. exists v. now right.
Qed.

Lemma seen_tk pre : forall s,
  tk_resolved (fold_left note pre s) = true ->
  tk_resolved s = true \/ exists v, In (Settled Tickets (Resolved v)) pre.
Proof.
  induction pre as [|e pre IH]; intros s H; [now left|].
  simpl in H. destruct (IH _ H) as [H1 | [v H1]].
  - destruct e as [| | | | | | |[] []]; simpl in H1; auto.
    right. eexists. left. reflexivity.
  - right. exists v. now right.
Qed.

Lemma seen_rejected pre : forall s,
  rejected (fold_left note pre s) = true ->
  rejected s = true \/ exists rd e, In (Settled rd (Rejected e)) pre.
Proof.
  induction pre as [|e pre IH]; intros s H; [now left|].
  simpl in H. destruct (IH _ H) as [H1 | (rd & e' & H1)].
  - destruct e as [| | | | | | |[] []]; simpl in H1; auto;
      right; do 2 eexists; left; reflexivity.
  - right. exists rd, e'. now right.
Qed.

Lemma cleared_in_time_sound evs : forall s pre post,
  cleared_in_time s evs = true ->
  evs = (pre ++ SetLoading false :: post)%list ->
  may_clear (fold_left note pre s) = true.
Proof.
  induction evs as [|e evs IH]; intros s pre post H E.
  { destruct pre; discriminate. }
  destruct pre as [|x pre].
  - simpl in E. injection E as -> _. simpl in H.
    now apply andb_true_iff in H as [H _].
  - simpl in E. injection E as -> E. simpl in H.
    apply andb_true_iff in H as [_ H]. simpl. eapply IH; eauto.
Qed.

(** *** [refresh] *)

Lemma started_well_formed tok : well_formed (started tok).
Proof.
  intros _. split.
  - intros [] e; discriminate.
  - intros (s1 & s2 & H & _). discriminate.
Qed.

Lemma refresh_outcome BASE tok srv params sched :
  Outcome (fst (run srv (refresh_requests BASE tok params) (started tok) sched))
          (snd (run srv (refresh_requests BASE tok params) (started tok) sched)).
Proof. apply run_outcome; [apply started_well_formed | reflexivity]. Qed.

Lemma refresh_replay BASE tok srv params sched h :
  replay h (refresh BASE tok srv params sched) =
  replay (replay h (refresh_start BASE tok params))
    (setters (snd (run srv (refresh_requests BASE tok params) (started tok) sched))).
Proof. unfold refresh. now rewrite replay_app, <- replay_setters. Qed.

Lemma loading_resolved h v w :
  loading (replay h (refresh_resolved v w)) = false.
Proof. destruct w; reflexivity. Qed.

(** C4, as the code has it. [refresh] sends both reads before anything
    else happens; [setLoading(false)] comes once both reads have resolved
    or as soon as one of them has rejected, without waiting for the other;
    when a read rejects the ticket list stays as it was and [err] holds a
    message; and once the answers to both reads have all come in (two
    fetches of each at most) the refresh has ended with loading cleared. *)
Theorem refresh_settles (BASE tok : string) (srv : Server) (params : Fields)
    (sched : list Read) (h : State) :
  let evs := refresh BASE tok srv params sched in
  (exists rest,
     evs = SetLoading true :: SetErr "" ::
           Fetch (refresh_requests BASE tok params MeetingWindow) ::
           Fetch (refresh_requests BASE tok params Tickets) :: rest)
  /\ (forall pre post, evs = (pre ++ SetLoading false :: post)%list ->
        (exists v w, In (Settled MeetingWindow (Resolved v)) pre /\
                     In (Settled Tickets (Resolved w)) pre)
        \/ (exists rd e, In (Settled rd (Rejected e)) pre))
  /\ (forall rd e, In (Settled rd (Rejected e)) evs ->
        rows (replay h evs) = rows h /\
        err (replay h evs) <> "" /\
        loading (replay h evs) = false)
  /\ ((2 <= deliveries MeetingWindow sched)%nat ->
      (2 <= deliveries Tickets sched)%nat ->
      refresh_finished BASE tok srv params sched = true /\
      loading (replay h evs) = false).
Proof.
  intros evs. split; [|split; [|split]].
  - eexists. reflexivity.
  - intros pre post E.
    assert (Hc : cleared_in_time nothing_seen evs = true).
    { unfold evs, refresh. rewrite cleared_in_time_app. simpl.
      apply run_cleared. split; intros v H; discriminate. }
    pose proof (cleared_in_time_sound evs _ pre post Hc E) as Hm.
    unfold may_clear in Hm. apply orb_true_iff in Hm as [Hm|Hm].
    + apply andb_true_iff in Hm as [H1 H2].
      apply seen_mw in H1 as [H1|[v H1]]; [discriminate|].
      apply seen_tk in H2 as [H2|[w H2]]; [discriminate|].
      left. now exists v, w.
    + apply seen_rejected in Hm as [Hm|Hm]; [discriminate|]. now right.
  - intros rd e Hin.
    unfold evs in *. rewrite refresh_replay.
    unfold refresh in Hin. apply in_app_or in Hin as [Hin|Hin].
    { simpl in Hin. repeat (destruct Hin as [Hin|Hin]; [discriminate|]).
      contradiction. }
    apply run_settled in Hin.
    destruct (refresh_outcome BASE tok srv params sched)
      as [Hj Hwf _ | rd' e' _ _ Hs | v w _ Hv Hw _].
    + exfalso. destruct (Hwf Hj) as [Hn _]. exact (Hn _ _ Hin).
    + rewrite Hs. simpl. repeat split. apply refresh_message_nonempty.
    + exfalso. destruct rd; simpl in Hin; congruence.
  - intros Hmw Htk.
    pose proof (run_progress srv (refresh_requests BASE tok params) sched
                  (started tok) MeetingWindow Hmw) as Rm.
    pose proof (run_progress srv (refresh_requests BASE tok params) sched
                  (started tok) Tickets Htk) as Rt.
    unfold evs, refresh_finished. rewrite refresh_replay.
    destruct (refresh_outcome BASE tok srv params sched)
      as [Hj Hwf _ | rd' e' Hj _ Hs | v w Hj _ _ Hs].
    + exfalso. destruct (Hwf Hj) as [_ Hb]. apply Hb.
      unfold remaining in Rm, Rt. simpl in Rm, Rt.
      destruct (mwS _) as [|s1]; [discriminate|].
      destruct (tkS _) as [|s2]; [discriminate|].
      now exists s1, s2.
    + split; [exact Hj|]. rewrite Hs. reflexivity.
    + split; [exact Hj|]. rewrite Hs. apply loading_resolved.
Qed.

(** The schedule of the scenario lets a refresh end. *)
Lemma refresh_settles_witness :
  (2 <= deliveries MeetingWindow [MeetingWindow; Tickets; MeetingWindow; Tickets])%nat
  /\ (2 <= deliveries Tickets [MeetingWindow; Tickets; MeetingWindow; Tickets])%nat
  /\ refresh_finished Scenario.BASE "" Scenario.healthy []
       [MeetingWindow; Tickets; MeetingWindow; Tickets] = true
  /\ loading (replay initial
                (refresh Scenario.BASE "" Scenario.healthy []
                   [MeetingWindow; Tickets; MeetingWindow; Tickets])) = false.
Proof.
  split; [unfold deliveries; simpl; lia|].
  split; [unfold deliveries; simpl; lia|].
  apply (refresh_settles Scenario.BASE "" Scenario.healthy []
           [MeetingWindow; Tickets; MeetingWindow; Tickets] initial);
    unfold deliveries; simpl; lia.
Defined.

(** C4 as stated fails: the meeting-window read is refused with 500, the
    ticket read is answered later; loading is cleared before the ticket
    read has settled. *)
Lemma loading_cleared_before_tickets_settle :
  exists pre post,
    refresh Scenario.BASE "" Scenario.window_down [] Scenario.in_order
      = (pre ++ SetLoading false :: post)%list
    /\ (forall s, ~ In (Settled Tickets s) pre)
    /\ In (Settled Tickets (Resolved Scenario.listing)) post.
Proof.
  exists (firstn 6 (refresh Scenario.BASE "" Scenario.window_down []
                      Scenario.in_order)),
         (skipn 7 (refresh Scenario.BASE "" Scenario.window_down []
                      Scenario.in_order)).
  split; [reflexivity|]. split.
  - intros s H. cbv in H.
    repeat (destruct H as [H|H]; [discriminate|]). exact H.
  - left. reflexivity.
Qed.

(** *** The mutations *)

Lemma call_first BASE srv c :
  exists more,
    snd (call BASE srv c) = request_of_call BASE c :: more.
Proof.
  unfold call, request_of_call. rewrite GatewayFacts.req_sent.
  pose proof (GatewayFacts.req_from_attempts srv 0 (o_retries (snd c))) as H.
  destruct (snd (req_from srv 0 (o_retries (snd c)))) as [|n]; [lia|].
  eexists. reflexivity.
Qed.

Lemma mutate_rejected BASE tok w c fallback e h :
  fst (call BASE (write_answers w) c) = Rejected e ->
  replay h (mutate BASE tok w c fallback)
    = with_err h (str_or (message_of e) fallback).
Proof.
  unfold mutate. destruct (call BASE (write_answers w) c) as [s sent].
  simpl. intros ->.
  rewrite replay_setters, setters_app, setters_fetches. reflexivity.
Qed.

Lemma mutate_resolved BASE tok w c fallback v :
  fst (call BASE (write_answers w) c) = Resolved v ->
  mutate BASE tok w c fallback
    = (map Fetch (snd (call BASE (write_answers w) c)) ++
       refresh BASE tok (server w) [] (schedule w))%list.
Proof.
  unfold mutate. destruct (call BASE (write_answers w) c) as [s sent].
  simpl. now intros ->.
Qed.

Lemma mutate_first BASE tok w c fallback :
  exists rest,
    mutate BASE tok w c fallback = Fetch (request_of_call BASE c) :: rest.
Proof.
  unfold mutate. destruct (call_first BASE (write_answers w) c) as [more E].
  destruct (call BASE (write_answers w) c) as [s sent]. simpl in E. subst sent.
  eexists. reflexivity.
Qed.



(** C5, as the code has it. The hook has one error state, [err], which
    [refresh] and the three mutations all write: a failed [updateStatus],
    [reassign] or [addNote] puts its own message there, in place of
    whatever [err] held, and leaves [rows], [meetingWindow] and [loading]
    as they were; every [refresh] starts by blanking [err]. *)
Theorem mutation_failure_shares_err (BASE tok : string) (w : World) (id : Z)
    (status assignee_id isPublic : jsval) (body : string) (h : State) (e : Thrown) :
  (fst (call BASE (write_answers w)
          (patchTicket_call tok id (JObj [("status", status)]))) = Rejected e ->
   replay h (updateStatus BASE tok w id status)
     = with_err h (str_or (message_of e) "Failed to update status"))
  /\ (fst (call BASE (write_answers w)
             (patchTicket_call tok id (JObj [("assignee_id", assignee_id)])))
        = Rejected e ->
      replay h (reassign BASE tok w id assignee_id)
        = with_err h (str_or (message_of e) "Failed to reassign ticket"))
  /\ (fst (call BASE (write_answers w)
             (addComment_call tok id (JStr body) isPublic)) = Rejected e ->
      replay h (addNote BASE tok w id body isPublic)
        = with_err h (str_or (message_of e) "Failed to add note"))
  /\ (forall params, err (replay h (refresh_start BASE tok params)) = "").
Proof.
  repeat split; try apply mutate_rejected.
Qed.

Lemma mutation_failure_shares_err_witness :
  replay (with_err initial "Error 500: boom")
    (updateStatus Scenario.BASE "" Scenario.refusing 77 (JStr "solved"))
  = with_err initial "invalid status".
Proof.
  apply (mutation_failure_shares_err Scenario.BASE "" Scenario.refusing 77
           (JStr "solved") JNull JNull "" (with_err initial "Error 500: boom")
           (Failure 400 "invalid status")).
  reflexivity.
Defined.

(** C5 as stated fails: a refresh fails and leaves its message in [err];
    a status change is then refused; [err] now holds the message of the
    status change. *)
Lemma failed_mutation_overwrites_refresh_error :
  err (replay initial
         (Session.session Scenario.BASE ""
            [Session.CallRefresh Scenario.window_down [] Scenario.in_order]))
    = "Error 500: boom"
  /\ err (replay initial
            (Session.session Scenario.BASE ""
               [Session.CallRefresh Scenario.window_down [] Scenario.in_order;
                Session.CallUpdateStatus Scenario.refusing 77 (JStr "solved")]))
    = "invalid status".
Proof. split; reflexivity. Qed.

(** C9, as the code has it. After a successful [updateStatus] write the
    hook calls [refresh()] with no parameters, whatever parameters the
    refresh before it was called with: the ticket read that follows the
    write always asks [bucketed=true]. *)
Theorem write_then_default_refresh (BASE tok : string) (srv : Server)
    (p : Fields) (sched : list Read) (w : World) (id : Z) (status v : jsval) :
  fst (call BASE (write_answers w)
         (patchTicket_call tok id (JObj [("status", status)]))) = Resolved v ->
  Session.session BASE tok
    [Session.CallRefresh srv p sched; Session.CallUpdateStatus w id status]
  = (refresh BASE tok srv p sched ++
     map Fetch (snd (call BASE (write_answers w)
                       (patchTicket_call tok id (JObj [("status", status)])))) ++
     refresh BASE tok (server w) [] (schedule w))%list
  /\ url (refresh_requests BASE tok [] Tickets)
     = BASE ++ "/api/tickets?bucketed=true".
Proof.
  intros H. split; [|reflexivity].
  unfold Session.session. simpl. rewrite app_nil_r.
  unfold updateStatus. now rewrite (mutate_resolved _ _ _ _ _ v H).
Qed.

Lemma write_then_default_refresh_witness :
  Session.session Scenario.BASE ""
    [Session.CallRefresh Scenario.healthy Scenario.exact_days Scenario.in_order;
     Session.CallUpdateStatus Scenario.accepting 77 (JStr "solved")]
  = (refresh Scenario.BASE "" Scenario.healthy Scenario.exact_days Scenario.in_order ++
     map Fetch (snd (call Scenario.BASE (write_answers Scenario.accepting)
                       (patchTicket_call "" 77 (JObj [("status", JStr "solved")])))) ++
     refresh Scenario.BASE "" (server Scenario.accepting) []
       (schedule Scenario.accepting))%list
  /\ url (refresh_requests Scenario.BASE "" [] Tickets)
     = Scenario.BASE ++ "/api/tickets?bucketed=true".
Proof.
  apply (write_then_default_refresh Scenario.BASE "" Scenario.healthy
           Scenario.exact_days Scenario.in_order Scenario.accepting 77
           (JStr "solved") (JObj [])).
  reflexivity.
Defined.

(** C9 as stated fails: the last refresh asked for exact days
    ([bucketed=false]); the refresh that follows the status change asks
    [bucketed=true]. *)
Lemma write_forgets_filter :
  map url
    (fetched
       (Session.session Scenario.BASE ""
          [Session.CallRefresh Scenario.healthy Scenario.exact_days Scenario.in_order;
           Session.CallUpdateStatus Scenario.accepting 77 (JStr "solved")]))
  = ["http://localhost:8080/api/meeting-window";
     "http://localhost:8080/api/tickets?bucketed=false";
     "http://localhost:8080/api/tickets/77";
     "http://localhost:8080/api/meeting-window";
     "http://localhost:8080/api/tickets?bucketed=true"].
Proof. reflexivity. Qed.

End HookFacts.

(* ================================================================== *)
(** ** Properties of the row                                           *)
(* ================================================================== *)

Module RowFacts.
Import Gateway Trace TicketRow Observe.

Lemma String_of_Z_nonempty (n : Z) : String_of_Z n <> "".
Proof.
  unfold String_of_Z. destruct (Z.to_int n) as [d|d]; simpl.
  - destruct d; discriminate.
  - discriminate.
Qed.

Lemma find_selected_matches users newAssignee c :
  find_selected users newAssignee = Some c ->
  In c users /\ String_of_Z (id c) = newAssignee.
Proof.
  unfold find_selected. intros H. apply find_some in H as [Hin Heq].
  split; [exact Hin|]. now apply String.eqb_eq.
Qed.

Lemma selection_truthy users newAssignee c :
  find_selected users newAssignee = Some c ->
  truthy (JStr newAssignee) = true.
Proof.
  intros H. apply find_selected_matches in H as [_ <-]. simpl.
  apply negb_true_iff, String.eqb_neq, String_of_Z_nonempty.
Qed.

Lemma truthy_str (s : string) : truthy (JStr s) = negb (s =? "")%string.
Proof. reflexivity. Qed.


(** What the handler does when the chosen value is the identifier of a
    loaded candidate: the object the row hands to [reassign] ends up under
    the key [assignee_id] of the PATCH body. *)
Lemma chooseAssignee_found BASE tok Number w users t_id newAssignee c :
  find_selected users newAssignee = Some c ->
  exists rest,
    Dashboard.chooseAssignee BASE tok Number w users t_id newAssignee
      = SetAssignee (JStr newAssignee) :: SetGroup (group_id c) ::
        Fetch (request_of_call BASE
                 (patchTicket_call tok t_id
                    (JObj [("assignee_id",
                            JObj [("assignee_id", JNum (id c));
                                  ("group_id", group_id c)])])))
        :: rest.
Proof.
  intros H. unfold Dashboard.chooseAssignee, onAssigneeChange.
  rewrite (selection_truthy _ _ _ H), H.
  unfold Hook.reassign.
  destruct (HookFacts.mutate_first BASE tok w
              (patchTicket_call tok t_id
                 (JObj [("assignee_id",
                         JObj [("assignee_id", JNum (id c));
                               ("group_id", group_id c)])]))
              "Failed to reassign ticket") as [rest E].
  rewrite E. eexists. reflexivity.
Qed.


(** C7. When the chosen candidate [c] is in the loaded list, the row sets
    its group to the group of [c] and only then is the write sent: the
    PATCH of the ticket is the first request, and it comes after
    [setGroup]. *)
Theorem group_set_before_write (BASE tok : string) (Number : string -> jsval)
    (w : Hook.World) (users : list Agent) (t_id : Z) (newAssignee : string)
    (c : Agent) (g0 : jsval) :
  find_selected users newAssignee = Some c ->
  exists rq rest,
    Dashboard.chooseAssignee BASE tok Number w users t_id newAssignee
      = SetAssignee (JStr newAssignee) :: SetGroup (group_id c) ::
        Fetch rq :: rest
    /\ method rq = "PATCH"
    /\ url rq = BASE ++ "/api/tickets/" ++ String_of_Z t_id
    /\ shown_group g0 [SetAssignee (JStr newAssignee); SetGroup (group_id c)]
       = group_id c.
Proof.
  intros H.
  destruct (chooseAssignee_found BASE tok Number w users t_id newAssignee c H)
    as [rest E].
  rewrite E. do 2 eexists. split; [reflexivity|]. repeat split.
Qed.

Lemma group_set_before_write_witness :
  find_selected Scenario.candidates "2"
    = Some {| id := 2; name := "Bo"; group_id := JStr "Policy" |}
  /\ exists rq rest,
       Dashboard.chooseAssignee Scenario.BASE "" Scenario.Number_decimal
         Scenario.accepting Scenario.candidates 77 "2"
         = SetAssignee (JStr "2") :: SetGroup (JStr "Policy") :: Fetch rq :: rest
       /\ method rq = "PATCH"
       /\ url rq = Scenario.BASE ++ "/api/tickets/" ++ String_of_Z 77
       /\ shown_group (JStr "AIMS") [SetAssignee (JStr "2"); SetGroup (JStr "Policy")]
          = JStr "Policy".
Proof.
  split; [reflexivity|].
  apply (group_set_before_write Scenario.BASE "" Scenario.Number_decimal
           Scenario.accepting Scenario.candidates 77 "2"
           {| id := 2; name := "Bo"; group_id := JStr "Policy" |} (JStr "AIMS")).
  reflexivity.
Defined.

(** C1 on the code. Ann (1, AIMS) and Bo (2, Policy) are loaded and Bo is
    chosen for ticket 77: the body of the PATCH has the single top-level
    field [assignee_id], whose value is the object
    [{ assignee_id: 2, group_id: "Policy" }] that the row handed to
    [reassign]; there is no top-level [group_id]. *)
Theorem reassign_payload_nests_fields (BASE tok : string)
    (Number : string -> jsval) (w : Hook.World) :
  exists rq rest,
    Dashboard.chooseAssignee BASE tok Number w Scenario.candidates 77 "2"
      = SetAssignee (JStr "2") :: SetGroup (JStr "Policy") :: Fetch rq :: rest
    /\ url rq = BASE ++ "/api/tickets/77"
    /\ method rq = "PATCH"
    /\ body rq = Some (JObj [("assignee_id",
                              JObj [("assignee_id", JNum 2);
                                    ("group_id", JStr "Policy")])])
    /\ get "group_id"
         [("assignee_id", JObj [("assignee_id", JNum 2); ("group_id", JStr "Policy")])]
       = JUndefined
    /\ get "assignee_id"
         [("assignee_id", JObj [("assignee_id", JNum 2); ("group_id", JStr "Policy")])]
       <> JNum 2.
Proof.
  destruct (chooseAssignee_found BASE tok Number w Scenario.candidates 77 "2"
              {| id := 2; name := "Bo"; group_id := JStr "Policy" |} eq_refl)
    as [rest E].
  rewrite E. do 2 eexists. split; [reflexivity|].
  repeat split. discriminate.
Qed.



(** *** Notes *)

(** C3, as the code has it. [addNote] posts the comment whatever the body
    is, also when it trims to the empty string, and refreshes when the post
    has succeeded; it raises no error of its own. The gate is in the
    editor: a click on Add with a text that trims to the empty string
    calls nothing and leaves the editor as it is; any other click calls
    [addNote] with the trimmed text and empties the editor. *)
Theorem note_gate (BASE tok : string) (w : Hook.World) (id : Z)
    (body : string) (isPublic : jsval) (s : NotesEditor.State) :
  (exists rest,
     Hook.addNote BASE tok w id body isPublic
       = Fetch (request_of_call BASE (addComment_call tok id (JStr body) isPublic))
         :: rest)
  /\ (forall v,
        fst (call BASE (Hook.write_answers w)
               (addComment_call tok id (JStr body) isPublic)) = Resolved v ->
        Hook.addNote BASE tok w id body isPublic
          = (map Fetch (snd (call BASE (Hook.write_answers w)
                               (addComment_call tok id (JStr body) isPublic))) ++
             Hook.refresh BASE tok (Hook.server w) [] (Hook.schedule w))%list)
  /\ (trim (NotesEditor.text s) = "" ->
      Dashboard.clickAdd BASE tok w id s = ([], s))
  /\ (trim (NotesEditor.text s) <> "" ->
      Dashboard.clickAdd BASE tok w id s
        = (Hook.addNote BASE tok w id (trim (NotesEditor.text s))
             (JBool (NotesEditor.isPublic s)),
           {| NotesEditor.text := "";
              NotesEditor.isPublic := NotesEditor.isPublic s |})).
Proof.
  repeat split.
  - apply HookFacts.mutate_first.
  - intros v H. unfold Hook.addNote. now apply HookFacts.mutate_resolved with v.
  - intros H. unfold Dashboard.clickAdd, NotesEditor.onAddClick.
    rewrite truthy_str, H. reflexivity.
  - intros H. unfold Dashboard.clickAdd, NotesEditor.onAddClick.
    rewrite truthy_str. apply String.eqb_neq in H. rewrite H. reflexivity.
Qed.

Lemma note_gate_witness :
  Dashboard.clickAdd Scenario.BASE "" Scenario.accepting 77
    {| NotesEditor.text := "   "; NotesEditor.isPublic := false |}
  = ([], {| NotesEditor.text := "   "; NotesEditor.isPublic := false |})
  /\ Dashboard.clickAdd Scenario.BASE "" Scenario.accepting 77
       {| NotesEditor.text := " seen "; NotesEditor.isPublic := true |}
     = (Hook.addNote Scenario.BASE "" Scenario.accepting 77 "seen" (JBool true),
        {| NotesEditor.text := ""; NotesEditor.isPublic := true |})
  /\ Dashboard.clickAdd Scenario.BASE "" Scenario.accepting 77
       {| NotesEditor.text := Scenario.nbsp; NotesEditor.isPublic := false |}
     = ([], {| NotesEditor.text := Scenario.nbsp; NotesEditor.isPublic := false |}).
Proof.
  split; [|split].
  - apply (note_gate Scenario.BASE "" Scenario.accepting 77 "" JNull
             {| NotesEditor.text := "   "; NotesEditor.isPublic := false |}).
    reflexivity.
  - apply (note_gate Scenario.BASE "" Scenario.accepting 77 "" JNull
             {| NotesEditor.text := " seen "; NotesEditor.isPublic := true |}).
    discriminate.
  - apply (note_gate Scenario.BASE "" Scenario.accepting 77 "" JNull
             {| NotesEditor.text := Scenario.nbsp; NotesEditor.isPublic := false |}).
    reflexivity.
Defined.

(** C3 as stated fails: [addNote(77, "", false)] sends the POST and, the
    server accepting it, leaves no error. *)
Lemma empty_note_is_posted :
  trim "" = ""
  /\ (exists rest,
        Hook.addNote Scenario.BASE "" Scenario.accepting 77 "" (JBool false)
          = Fetch {| url := "http://localhost:8080/api/tickets/77/comments";
                     method := "POST";
                     headers := [("Content-Type", "application/json");
                                 ("X-Request-Source", "ZAF-Frontend");
                                 ("X-Client-Version", "2.0.0")];
                     body := Some (JObj [("body", JStr ""); ("public", JBool false)]) |}
            :: rest)
  /\ Hook.err (Hook.replay Hook.initial
                 (Hook.addNote Scenario.BASE "" Scenario.accepting 77 ""
                    (JBool false))) = "".
Proof.
  split; [reflexivity|]. split; [|reflexivity].
  eexists. reflexivity.
Qed.

End RowFacts.

(* ================================================================== *)
(** ** More on the request helper                                      *)
(* ================================================================== *)

Module GatewayMore.
Import Gateway Sent.

(** A failure that is retried is a 502, 503 or 504 response. *)
Lemma transient_attempt (o : FetchOutcome) (e : Thrown) :
  attempt o = Rejected e -> transient e = true ->
  exists r, o = Responded r /\ ok r = false /\
            (status r = 502 \/ status r = 503 \/ status r = 504).
Proof.
  destruct o as [r|m|m]; simpl.
  - destruct (ok r) eqn:Hok.
    + destruct (json r); intros H; inversion H; subst; discriminate.
    + intros H Ht. inversion H; subst.
      apply GatewayFacts.transient_status in Ht. exists r. auto.
  - intros H; inversion H; subst; discriminate.
  - intros H; inversion H; subst; discriminate.
Qed.

Lemma req_from_retried srv retries : forall i k,
  (i <= k)%nat -> (k < i + snd (req_from srv i retries) - 1)%nat ->
  exists r, srv k = Responded r /\ ok r = false /\
            (status r = 502 \/ status r = 503 \/ status r = 504).
Proof.
  induction retries as [|r IH]; intros i k Hle Hlt; simpl in Hlt.
  - destruct (attempt (srv i)); simpl in Hlt; lia.
  - destruct (attempt (srv i)) as [v|e] eqn:E; simpl in Hlt; [lia|].
    destruct (transient e) eqn:Ht; simpl in Hlt; [|lia].
    destruct (Nat.eq_dec k i) as [->|Hne].
    + exact (transient_attempt _ _ E Ht).
    + apply (IH (S i) k); [lia|].
      destruct (req_from srv (S i) r) as [s n]. simpl in *. lia.
Qed.

(** X1. Whatever the retry budget and the answers, [req] calls [fetch] at
    least once and at most once more than its budget. *)
Theorem attempts_within_budget (BASE : string) (srv : nat -> FetchOutcome)
    (path : string) (opts : Options) :
  (1 <= List.length (snd (req BASE srv path opts)) <= S (o_retries opts))%nat.
Proof.
  rewrite GatewayFacts.req_sent, repeat_length. split.
  - apply GatewayFacts.req_from_attempts.
  - apply GatewayFacts.req_from_bounded.
Qed.

(** X2. [req] tries again only after a 502, 503 or 504: every attempt
    but the last one of a call was answered by a response with one of
    these statuses; never a success, another status, a timeout or a
    network error. *)
Theorem retried_only_when_transient (BASE : string) (srv : nat -> FetchOutcome)
    (path : string) (opts : Options) (k : nat) :
  (k < List.length (snd (req BASE srv path opts)) - 1)%nat ->
  exists r, srv k = Responded r /\ ok r = false /\
            (status r = 502 \/ status r = 503 \/ status r = 504).
Proof.
  rewrite GatewayFacts.req_sent, repeat_length. intros H.
  apply (req_from_retried srv (o_retries opts) 0 k); simpl; lia.
Qed.

Lemma retried_only_when_transient_witness :
  exists r,
    Scenario.then_ (Scenario.failing 503 "Service Unavailable" "busy")
      (Scenario.always (Scenario.ok_with (JObj []))) 0%nat = Responded r
    /\ ok r = false
    /\ (status r = 502 \/ status r = 503 \/ status r = 504).
Proof.
  apply (retried_only_when_transient Scenario.BASE
           (Scenario.then_ (Scenario.failing 503 "Service Unavailable" "busy")
              (Scenario.always (Scenario.ok_with (JObj []))))
           "/api/users" (defaults "") 0%nat).
  simpl. lia.
Defined.

Lemma attempt_resolved (o : FetchOutcome) (v : jsval) :
  attempt o = Resolved v <->
  exists r, o = Responded r /\ ok r = true /\ json r = inr v.
Proof.
  split.
  - destruct o as [r|m|m]; simpl; try discriminate.
    destruct (ok r) eqn:Hok; [|discriminate].
    destruct (json r) as [m|w] eqn:Hj; [discriminate|].
    intros H; inversion H; subst. exists r. auto.
  - intros (r & -> & Hok & Hj). simpl. now rewrite Hok, Hj.
Qed.

(** X3. A call resolves exactly when its last attempt is answered by a
    2xx response whose body parses, and then with the parsed value; the
    answers to earlier attempts do not show in the result. *)
Theorem resolves_with_last_json (BASE : string) (srv : nat -> FetchOutcome)
    (path : string) (opts : Options) (v : jsval) :
  fst (req BASE srv path opts) = Resolved v <->
  exists r,
    srv (List.length (snd (req BASE srv path opts)) - 1)%nat = Responded r
    /\ ok r = true /\ json r = inr v.
Proof.
  rewrite GatewayFacts.req_sent, repeat_length, GatewayFacts.req_settles.
  rewrite GatewayFacts.req_from_last. simpl. apply attempt_resolved.
Qed.

Lemma resolves_with_last_json_witness :
  fst (req Scenario.BASE
         (Scenario.then_ (Scenario.failing 503 "Service Unavailable" "busy")
            (Scenario.always (Scenario.ok_with Scenario.listing)))
         "/api/tickets?bucketed=true" (defaults ""))
  = Resolved Scenario.listing.
Proof.
  apply (resolves_with_last_json Scenario.BASE
           (Scenario.then_ (Scenario.failing 503 "Service Unavailable" "busy")
              (Scenario.always (Scenario.ok_with Scenario.listing)))
           "/api/tickets?bucketed=true" (defaults "") Scenario.listing).
  eexists. split; [reflexivity|]. split; reflexivity.
Defined.

(** *** The entries of the ticket query *)

Lemma filter_set_others (k : string) (v : jsval) (o : Fields) :
  filter (fun kv => negb (fst kv =? k)%string) (JS.set k v o)
  = filter (fun kv => negb (fst kv =? k)%string) o.
Proof.
  induction o as [|[k' v'] o IH]; simpl.
  - now rewrite String.eqb_refl.
  - destruct (String.eqb_spec k' k) as [->|Hne]; simpl.
    + now rewrite String.eqb_refl.
    + apply String.eqb_neq in Hne. rewrite Hne. simpl. now rewrite IH.
Qed.

Lemma filter_absent (k : string) (o : Fields) :
  ~ In k (map fst o) ->
  filter (fun kv => (fst kv =? k)%string) o = [].
Proof.
  induction o as [|[k' v'] o IH]; simpl; [reflexivity|].
  intros H. destruct (String.eqb_spec k' k) as [->|Hne].
  - exfalso. apply H. now left.
  - apply IH. intros Hin. apply H. now right.
Qed.

Lemma filter_set_key (k : string) (v : jsval) (o : Fields) :
  NoDup (map fst o) ->
  filter (fun kv => (fst kv =? k)%string) (JS.set k v o) = [(k, v)].
Proof.
  induction o as [|[k' v'] o IH]; simpl; intros Hnd.
  - now rewrite String.eqb_refl.
  - inversion Hnd as [|? ? Hnotin Hnd']; subst.
    destruct (String.eqb_spec k' k) as [->|Hne]; simpl.
    + rewrite String.eqb_refl. f_equal. now apply filter_absent.
    + apply String.eqb_neq in Hne. rewrite Hne. now apply IH.
Qed.

Lemma filter_entries (f : string -> bool) (o : Fields) :
  filter (fun kv : string * string => f (fst kv)) (URLSearchParams o)
  = URLSearchParams (filter (fun kv : string * jsval => f (fst kv)) o).
Proof.
  unfold URLSearchParams.
  induction o as [|[k v] o IH]; simpl; [reflexivity|].
  destruct (f k); simpl; now rewrite IH.
Qed.

(** X4. The query of [getTickets] for a [params] object (distinct keys):
    it has exactly one [bucketed] entry, whose value is [true] when
    [params.bucketed] is undefined (absent, or present and undefined) and
    the string form of [params.bucketed] otherwise; every other entry of
    [params] is forwarded, in order, with its value made a string. *)
Theorem tickets_entries_shape (params : Fields) :
  NoDup (map fst params) ->
  filter is_bucketed (tickets_entries params)
    = [("bucketed",
        match get "bucketed" params with
        | JUndefined => "true"
        | v => ToString v
        end)]
  /\ filter (fun kv => negb (is_bucketed kv)) (tickets_entries params)
     = URLSearchParams
         (filter (fun kv => negb (fst kv =? "bucketed")%string) params).
Proof.
  intros Hnd. unfold tickets_entries, is_bucketed. split.
  - rewrite (filter_entries (fun k => (k =? "bucketed")%string)).
    rewrite filter_set_key by exact Hnd.
    destruct (get "bucketed" params); reflexivity.
  - rewrite (filter_entries (fun k => negb (k =? "bucketed")%string)).
    now rewrite filter_set_others.
Qed.

Lemma tickets_entries_shape_witness :
  filter is_bucketed
    (tickets_entries [("bucketed", JUndefined); ("group", JStr "Policy")])
    = [("bucketed", "true")]
  /\ filter (fun kv => negb (is_bucketed kv))
       (tickets_entries [("bucketed", JUndefined); ("group", JStr "Policy")])
     = [("group", "Policy")].
Proof.
  apply (tickets_entries_shape [("bucketed", JUndefined); ("group", JStr "Policy")]).
  repeat constructor; simpl; intuition discriminate.
Defined.

End GatewayMore.

(* ================================================================== *)
(** ** More on the hook                                                *)
(* ================================================================== *)

Module HookMore.
Import Gateway Trace Hook Observe Progress Verdict Sent.

(** *** Where a refresh is heading *)

Section Heading.

Variable srv : Server.
Variable rq : Read -> Request.

Lemma step_verdict p x rd :
  verdict srv (fst (step srv rq p x)) rd = verdict srv p rd.
Proof.
  unfold step.
  destruct (state_of p x) as [i r|s0] eqn:E; [|reflexivity].
  destruct (HookFacts.read_cases x rd) as [-> | ->].
  - unfold verdict. rewrite E.
    rewrite (GatewayFacts.req_from_step (answers srv x) i r).
    destruct (req_step r (answers srv x i)) as [r'|s'].
    + simpl. rewrite HookFacts.state_of_with_same.
      now destruct (req_from (answers srv x) (S i) r').
    + destruct (react x s' _ _) as [evs j]. simpl.
      now rewrite HookFacts.state_of_with_same.
  - unfold verdict.
    destruct (req_step r (answers srv x i)) as [r'|s'].
    + simpl. now rewrite HookFacts.state_of_with_other.
    + destruct (react x s' _ _) as [evs j]. simpl.
      now rewrite HookFacts.state_of_with_other.
Qed.

Lemma run_verdict sched : forall p rd,
  verdict srv (fst (run srv rq p sched)) rd = verdict srv p rd.
Proof.
  induction sched as [|x rest IH]; intros p rd; [reflexivity|].
  simpl. pose proof (step_verdict p x rd) as H.
  destruct (step srv rq p x) as [p1 e1]. simpl in H.
  specialize (IH p1 rd).
  destruct (run srv rq p1 rest) as [p2 e2]. simpl in *. congruence.
Qed.

(** The requests of a refresh are those of its two reads. *)
Lemma run_fetches sched : forall p r,
  In (Fetch r) (snd (run srv rq p sched)) -> exists rd, r = rq rd.
Proof.
  induction sched as [|x rest IH]; intros p r; [intros []|].
  simpl.
  assert (H1 : In (Fetch r) (snd (step srv rq p x)) -> exists rd, r = rq rd).
  { unfold step. destruct (state_of p x) as [i n|s0]; [|intros []].
    destruct (req_step n (answers srv x i)) as [r'|s'].
    - simpl. intros [H|[]]. inversion H. now exists x.
    - unfold react. destruct (joined p); simpl.
      + intros [H|[]]. discriminate.
      + destruct s' as [v|e].
        * destruct (state_of p (other x)) as [i' r'|[w|e']]; simpl;
            try (intros [H|[]]; discriminate).
          intros [H|H]; [discriminate|].
          exfalso. destruct x; [destruct w | destruct v]; simpl in H;
            repeat (destruct H as [H|H]; [discriminate|]); exact H.
        * intros [H|[H|[H|[]]]]; discriminate. }
  destruct (step srv rq p x) as [p1 e1]. specialize (IH p1 r).
  destruct (run srv rq p1 rest) as [p2 e2]. simpl in *.
  intros H. apply in_app_or in H as [H|H]; auto.
Qed.

End Heading.

Lemma call_settles BASE srv c :
  o_retries (snd c) = 1%nat ->
  fst (call BASE srv c) = fst (req_from srv 0 1).
Proof. intros H. unfold call. now rewrite GatewayFacts.req_settles, H. Qed.

Lemma started_mw BASE tok srv :
  verdict srv (started tok) MeetingWindow
  = fst (call BASE (mw_answers srv) (getMeetingWindow_call tok)).
Proof. now rewrite call_settles. Qed.

Lemma started_tk BASE tok srv params :
  verdict srv (started tok) Tickets
  = fst (call BASE (tk_answers srv) (getTickets_call tok params)).
Proof. now rewrite call_settles. Qed.

(** How a refresh that has come to its end leaves the state. *)
Lemma refresh_ends BASE tok srv params sched h :
  (2 <= deliveries MeetingWindow sched)%nat ->
  (2 <= deliveries Tickets sched)%nat ->
  (exists rd e,
     verdict srv (started tok) rd = Rejected e /\
     replay h (refresh BASE tok srv params sched)
       = {| meetingWindow := meetingWindow h; rows := rows h;
            loading := false; err := refresh_message e |})
  \/ (exists v w,
        verdict srv (started tok) MeetingWindow = Resolved v /\
        verdict srv (started tok) Tickets = Resolved w /\
        replay h (refresh BASE tok srv params sched)
          = replay {| meetingWindow := meetingWindow h; rows := rows h;
                      loading := true; err := "" |}
              (refresh_resolved v w)).
Proof.
  intros Hmw Htk.
  pose proof (HookFacts.run_progress srv (refresh_requests BASE tok params)
                sched (started tok) MeetingWindow Hmw) as Rm.
  pose proof (HookFacts.run_progress srv (refresh_requests BASE tok params)
                sched (started tok) Tickets Htk) as Rt.
  pose proof (run_verdict srv (refresh_requests BASE tok params) sched
                (started tok)) as Hv.
  rewrite HookFacts.refresh_replay.
  destruct (HookFacts.refresh_outcome BASE tok srv params sched)
    as [Hj Hwf _ | rd e _ Hrd Hs | v w _ Hm Ht Hs].
  - exfalso. destruct (Hwf Hj) as [_ Hb]. apply Hb.
    unfold remaining in Rm, Rt. simpl in Rm, Rt.
    destruct (mwS _) as [|s1]; [discriminate|].
    destruct (tkS _) as [|s2]; [discriminate|].
    now exists s1, s2.
  - left. exists rd, e. split.
    + rewrite <- Hv. unfold verdict. now rewrite Hrd.
    + rewrite Hs. reflexivity.
  - right. exists v, w. repeat split.
    + rewrite <- Hv. unfold verdict. simpl. now rewrite Hm.
    + rewrite <- Hv. unfold verdict. simpl. now rewrite Ht.
    + rewrite Hs. reflexivity.
Qed.

(** X5. Once all answers are in, a refresh whose two reads succeed leaves
    the same state whatever the order in which the fetches ended: the
    window read, the [rows] of the ticket data (an empty list when the data
    has none), loading cleared and no error. *)
Theorem refresh_loads (BASE tok : string) (srv : Server) (params : Fields)
    (sched : list Read) (h : State) (v : jsval) (fields : Fields) :
  fst (call BASE (mw_answers srv) (getMeetingWindow_call tok)) = Resolved v ->
  fst (call BASE (tk_answers srv) (getTickets_call tok params))
    = Resolved (JObj fields) ->
  (2 <= deliveries MeetingWindow sched)%nat ->
  (2 <= deliveries Tickets sched)%nat ->
  replay h (refresh BASE tok srv params sched)
    = {| meetingWindow := v;
         rows := or_else (get "rows" fields) (JArr []);
         loading := false; err := "" |}.
Proof.
  intros Hm Ht Dm Dt.
  rewrite <- (started_mw BASE tok srv) in Hm.
  rewrite <- (started_tk BASE tok srv params) in Ht.
  destruct (refresh_ends BASE tok srv params sched h Dm Dt)
    as [(rd & e & Hr & _) | (v' & w' & Hv & Hw & E)].
  - destruct rd; congruence.
  - rewrite E.
    assert (v' = v) by congruence. assert (w' = JObj fields) by congruence.
    subst. reflexivity.
Qed.

Lemma refresh_loads_witness :
  replay initial
    (refresh Scenario.BASE "" Scenario.healthy []
       [Tickets; MeetingWindow; MeetingWindow; Tickets])
  = {| meetingWindow := Scenario.window;
       rows := or_else (get "rows" [("rows", JArr [Scenario.ticket77])]) (JArr []);
       loading := false; err := "" |}.
Proof.
  apply (refresh_loads Scenario.BASE "" Scenario.healthy []
           [Tickets; MeetingWindow; MeetingWindow; Tickets] initial
           Scenario.window [("rows", JArr [Scenario.ticket77])]).
  - reflexivity.
  - reflexivity.
  - unfold deliveries. simpl. lia.
  - unfold deliveries. simpl. lia.
Defined.

(** X6. Once all answers are in, a refresh one of whose reads fails keeps
    the window and the ticket list it had, clears loading, and shows the
    message of a read that failed: the message of the only one when the
    other read succeeded. *)
Theorem refresh_failure_state (BASE tok : string) (srv : Server)
    (params : Fields) (sched : list Read) (h : State) :
  (2 <= deliveries MeetingWindow sched)%nat ->
  (2 <= deliveries Tickets sched)%nat ->
  (exists e, fst (call BASE (mw_answers srv) (getMeetingWindow_call tok)) = Rejected e
          \/ fst (call BASE (tk_answers srv) (getTickets_call tok params)) = Rejected e) ->
  exists e,
    (fst (call BASE (mw_answers srv) (getMeetingWindow_call tok)) = Rejected e
     \/ fst (call BASE (tk_answers srv) (getTickets_call tok params)) = Rejected e)
    /\ replay h (refresh BASE tok srv params sched)
       = {| meetingWindow := meetingWindow h; rows := rows h;
            loading := false; err := refresh_message e |}.
Proof.
  intros Dm Dt (e0 & H0).
  rewrite <- (started_mw BASE tok srv) in *.
  rewrite <- (started_tk BASE tok srv params) in *.
  destruct (refresh_ends BASE tok srv params sched h Dm Dt)
    as [(rd & e & Hr & E) | (v' & w' & Hv & Hw & _)].
  - exists e. split; [|exact E]. destruct rd; auto.
  - destruct H0; congruence.
Qed.

Lemma refresh_failure_state_witness :
  exists e,
    (fst (call Scenario.BASE (mw_answers Scenario.window_down)
            (getMeetingWindow_call "")) = Rejected e
     \/ fst (call Scenario.BASE (tk_answers Scenario.window_down)
               (getTickets_call "" [])) = Rejected e)
    /\ replay initial
         (refresh Scenario.BASE "" Scenario.window_down []
            [Tickets; Tickets; MeetingWindow; MeetingWindow])
       = {| meetingWindow := meetingWindow initial; rows := rows initial;
            loading := false; err := refresh_message e |}.
Proof.
  apply (refresh_failure_state Scenario.BASE "" Scenario.window_down []
           [Tickets; Tickets; MeetingWindow; MeetingWindow] initial).
  - unfold deliveries. simpl. lia.
  - unfold deliveries. simpl. lia.
  - eexists. left. reflexivity.
Defined.

(** X7. When the ticket read answers with [null], [data.rows] throws
    inside the [try]: the window has already been replaced, the ticket list
    is kept, and the message of the TypeError is shown. *)
Theorem refresh_null_data (BASE tok : string) (srv : Server) (params : Fields)
    (sched : list Read) (h : State) (v : jsval) :
  fst (call BASE (mw_answers srv) (getMeetingWindow_call tok)) = Resolved v ->
  fst (call BASE (tk_answers srv) (getTickets_call tok params)) = Resolved JNull ->
  (2 <= deliveries MeetingWindow sched)%nat ->
  (2 <= deliveries Tickets sched)%nat ->
  replay h (refresh BASE tok srv params sched)
    = {| meetingWindow := v; rows := rows h; loading := false;
         err := cannot_read_rows JNull |}.
Proof.
  intros Hm Ht Dm Dt.
  rewrite <- (started_mw BASE tok srv) in Hm.
  rewrite <- (started_tk BASE tok srv params) in Ht.
  destruct (refresh_ends BASE tok srv params sched h Dm Dt)
    as [(rd & e & Hr & _) | (v' & w' & Hv & Hw & E)].
  - destruct rd; congruence.
  - rewrite E.
    assert (v' = v) by congruence. assert (w' = JNull) by congruence.
    subst. reflexivity.
Qed.

Lemma refresh_null_data_witness :
  replay initial
    (refresh Scenario.BASE ""
       {| mw_answers := Scenario.always (Scenario.ok_with Scenario.window);
          tk_answers := Scenario.always (Scenario.ok_with JNull) |}
       [] [MeetingWindow; Tickets; MeetingWindow; Tickets])
  = {| meetingWindow := Scenario.window; rows := rows initial; loading := false;
       err := cannot_read_rows JNull |}.
Proof.
  apply (refresh_null_data Scenario.BASE ""
           {| mw_answers := Scenario.always (Scenario.ok_with Scenario.window);
              tk_answers := Scenario.always (Scenario.ok_with JNull) |}
           [] [MeetingWindow; Tickets; MeetingWindow; Tickets] initial
           Scenario.window).
  - reflexivity.
  - reflexivity.
  - unfold deliveries. simpl. lia.
  - unfold deliveries. simpl. lia.
Defined.

(** X8. Refreshing twice against the same answers leaves the state the
    first refresh left. *)
Theorem refresh_idempotent (BASE tok : string) (srv : Server) (params : Fields)
    (sched : list Read) (h : State) :
  replay h
    (Session.session BASE tok
       [Session.CallRefresh srv params sched; Session.CallRefresh srv params sched])
  = replay h (Session.session BASE tok [Session.CallRefresh srv params sched]).
Proof.
  unfold Session.session. cbn [flat_map Session.perform]. rewrite !app_nil_r.
  rewrite HookFacts.replay_app.
  rewrite !HookFacts.refresh_replay.
  destruct (HookFacts.refresh_outcome BASE tok srv params sched)
    as [_ _ Hs | rd e _ _ Hs | v w _ _ _ Hs]; rewrite Hs.
  - reflexivity.
  - reflexivity.
  - destruct w; reflexivity.
Qed.

(** *** What the hook sends *)

Lemma in_fetched evs r : In r (fetched evs) <-> In (Fetch r) evs.
Proof.
  induction evs as [|e evs IH]; simpl; [tauto|].
  destruct e; simpl; rewrite IH; intuition (try discriminate; try congruence).
Qed.

Lemma fetched_app a b : fetched (a ++ b) = (fetched a ++ fetched b)%list.
Proof.
  induction a as [|e a IH]; simpl; [reflexivity|].
  destruct e; simpl; now rewrite IH.
Qed.

Lemma fetched_fetches l : fetched (map Fetch l) = l.
Proof. induction l; simpl; congruence. Qed.

Lemma refresh_fetch BASE tok srv params sched r :
  In (Fetch r) (refresh BASE tok srv params sched) ->
  exists rd, r = refresh_requests BASE tok params rd.
Proof.
  unfold refresh. intros H. apply in_app_or in H as [H|H].
  - simpl in H. destruct H as [H|[H|[H|[H|[]]]]]; try discriminate.
    + inversion H. now exists MeetingWindow.
    + inversion H. now exists Tickets.
  - now apply run_fetches in H.
Qed.

Lemma call_requests BASE srv c r :
  In r (snd (call BASE srv c)) -> r = request_of_call BASE c.
Proof.
  unfold call. rewrite GatewayFacts.req_sent. intros H.
  now apply repeat_spec in H.
Qed.

Lemma mutate_fetch BASE tok w c fallback r :
  In (Fetch r) (mutate BASE tok w c fallback) ->
  r = request_of_call BASE c \/
  exists rd, r = refresh_requests BASE tok [] rd.
Proof.
  unfold mutate.
  pose proof (call_requests BASE (write_answers w) c r) as Hc.
  destruct (call BASE (write_answers w) c) as [s sent]. simpl in Hc.
  intros H. apply in_app_or in H as [H|H].
  - left. apply Hc. apply in_map_iff in H as (x & Hx & Hin).
    inversion Hx. now subst.
  - destruct s as [v|e].
    + right. now apply refresh_fetch in H.
    + simpl in H. destruct H as [H|[]]. discriminate.
Qed.

(** X9. Every request the hook sends, in any sequence of refreshes and
    mutations, goes to a path under [BASE/api/] and carries the three
    fixed headers, followed by [Authorization: Bearer token] exactly when
    the token is not empty. *)
Theorem session_requests (BASE tok : string) (cs : list Session.Call)
    (r : Request) :
  In r (fetched (Session.session BASE tok cs)) ->
  headers r = session_headers tok
  /\ exists rest, url r = BASE ++ "/api/" ++ rest.
Proof.
  intros H. apply in_fetched in H.
  unfold Session.session in H. apply in_flat_map in H as (c & _ & H).
  assert (Hreads : forall p rd,
            headers (refresh_requests BASE tok p rd) = session_headers tok
            /\ exists rest, url (refresh_requests BASE tok p rd)
                             = BASE ++ "/api/" ++ rest).
  { intros p [|]; (split; [reflexivity|]); eexists; reflexivity. }
  destruct c as [srv p sched | w id st | w id a | w id b pub]; simpl in H.
  - apply refresh_fetch in H as [rd ->]. apply Hreads.
  - apply mutate_fetch in H as [-> | [rd ->]]; [|apply Hreads].
    split; [reflexivity|]. eexists; reflexivity.
  - apply mutate_fetch in H as [-> | [rd ->]]; [|apply Hreads].
    split; [reflexivity|]. eexists; reflexivity.
  - apply mutate_fetch in H as [-> | [rd ->]]; [|apply Hreads].
    split; [reflexivity|]. eexists; reflexivity.
Qed.

Lemma session_requests_witness :
  headers (request_of_call Scenario.BASE
             (patchTicket_call "secret" 77 (JObj [("status", JStr "solved")])))
    = session_headers "secret"
  /\ exists rest,
       url (request_of_call Scenario.BASE
              (patchTicket_call "secret" 77 (JObj [("status", JStr "solved")])))
         = Scenario.BASE ++ "/api/" ++ rest.
Proof.
  apply (session_requests Scenario.BASE "secret"
           [Session.CallUpdateStatus Scenario.refusing 77 (JStr "solved")]).
  left. reflexivity.
Defined.

(** *** The order of write and reads *)

Lemma mutate_fetched_rejected BASE tok w c fallback e :
  fst (call BASE (write_answers w) c) = Rejected e ->
  fetched (mutate BASE tok w c fallback) = snd (call BASE (write_answers w) c).
Proof.
  unfold mutate. destruct (call BASE (write_answers w) c) as [s sent].
  simpl. intros ->. rewrite fetched_app, fetched_fetches. simpl.
  apply app_nil_r.
Qed.

Lemma mutate_fetched_resolved BASE tok w c fallback v :
  fst (call BASE (write_answers w) c) = Resolved v ->
  exists more,
    fetched (mutate BASE tok w c fallback)
    = (snd (call BASE (write_answers w) c) ++
       refresh_requests BASE tok [] MeetingWindow ::
       refresh_requests BASE tok [] Tickets :: more)%list.
Proof.
  unfold mutate. destruct (call BASE (write_answers w) c) as [s sent].
  simpl. intros ->. rewrite fetched_app, fetched_fetches.
  unfold refresh. rewrite fetched_app. simpl. eexists. reflexivity.
Qed.

Lemma perform_mutation BASE tok c wc w fb :
  write_of tok c = Some (wc, w, fb) ->
  Session.perform BASE tok c = mutate BASE tok w wc fb.
Proof.
  destruct c; simpl; intros H; inversion H; reflexivity.
Qed.

(** X10. A mutation ([updateStatus], [reassign], [addNote]) whose write
    fails sends nothing but the attempts of the write: no read follows.
    When the write succeeds, the two reads of a refresh without parameters
    come right after the attempts of the write, and not before. *)
Theorem mutation_requests (BASE tok : string) (c : Session.Call)
    (wc : string * Options) (w : World) (fb : string) :
  write_of tok c = Some (wc, w, fb) ->
  (forall e,
     fst (call BASE (write_answers w) wc) = Rejected e ->
     fetched (Session.perform BASE tok c) = snd (call BASE (write_answers w) wc))
  /\ (forall v,
        fst (call BASE (write_answers w) wc) = Resolved v ->
        exists more,
          fetched (Session.perform BASE tok c)
            = (snd (call BASE (write_answers w) wc) ++
               refresh_requests BASE tok [] MeetingWindow ::
               refresh_requests BASE tok [] Tickets :: more)%list).
Proof.
  intros Hc. rewrite (perform_mutation BASE tok c wc w fb Hc). split.
  - intros e H. now apply mutate_fetched_rejected with e.
  - intros v H. now apply mutate_fetched_resolved with v.
Qed.

Lemma mutation_requests_witness :
  fetched (Session.perform Scenario.BASE ""
             (Session.CallAddNote Scenario.refusing 77 "seen" (JBool false)))
  = snd (call Scenario.BASE (write_answers Scenario.refusing)
           (addComment_call "" 77 (JStr "seen") (JBool false))).
Proof.
  apply (proj1 (mutation_requests Scenario.BASE ""
           (Session.CallAddNote Scenario.refusing 77 "seen" (JBool false))
           (addComment_call "" 77 (JStr "seen") (JBool false))
           Scenario.refusing "Failed to add note" eq_refl)
           (Failure 400 "invalid status")).
  reflexivity.
Defined.

(** *** The message of a failed mutation *)

Lemma attempt_failure_message (o : FetchOutcome) (st : Z) (m : string) :
  attempt o = Rejected (Failure st m) -> m <> "".
Proof.
  destruct o as [r|x|x]; simpl; try discriminate.
  destruct (ok r).
  - destruct (json r); discriminate.
  - intros H. inversion H. now apply GatewayFacts.str_or_nonempty.
Qed.

Lemma call_failure_message BASE srv c st m :
  fst (call BASE srv c) = Rejected (Failure st m) -> m <> "".
Proof.
  unfold call. rewrite GatewayFacts.req_settles, GatewayFacts.req_from_last.
  apply attempt_failure_message.
Qed.

Lemma write_of_fallback tok c wc w fb :
  write_of tok c = Some (wc, w, fb) -> fb <> "".
Proof. destruct c; simpl; intros H; inversion H; discriminate. Qed.

(** X11. A mutation whose write fails always leaves a message in [err]:
    the message of the error when it has one, the fallback text of the
    mutation when it has none. When the write was refused by an HTTP
    response the message is the detail text of that response alone,
    without the status code that a refresh would prefix. An error that was
    raised, a timeout or a failure of the network, shows its own message
    when that is not empty, and the fallback text only when it is. *)
Theorem mutation_failure_message (BASE tok : string) (c : Session.Call)
    (wc : string * Options) (w : World) (fb : string) (h : State) (e : Thrown) :
  write_of tok c = Some (wc, w, fb) ->
  fst (call BASE (write_answers w) wc) = Rejected e ->
  err (replay h (Session.perform BASE tok c)) <> ""
  /\ (forall st m, e = Failure st m ->
        err (replay h (Session.perform BASE tok c)) = m)
  /\ (forall n, e = Raised n "" ->
        err (replay h (Session.perform BASE tok c)) = fb)
  /\ (forall n m, e = Raised n m -> m <> "" ->
        err (replay h (Session.perform BASE tok c)) = m)
  /\ (message_of e <> "" ->
      err (replay h (Session.perform BASE tok c)) = message_of e)
  /\ (message_of e = "" ->
      err (replay h (Session.perform BASE tok c)) = fb)
  /\ (err (replay h (Session.perform BASE tok c)) = fb ->
      message_of e = "" \/ message_of e = fb).
Proof.
  intros Hc H. rewrite (perform_mutation BASE tok c wc w fb Hc).
  rewrite (HookFacts.mutate_rejected _ _ _ _ _ e h H). simpl.
  split; [|split; [|split; [|split; [|split; [|split]]]]].
  - apply GatewayFacts.str_or_nonempty. exact (write_of_fallback _ _ _ _ _ Hc).
  - intros st m ->. simpl. apply GatewayFacts.str_or_keeps.
    exact (call_failure_message _ _ _ _ _ H).
  - intros n ->. reflexivity.
  - intros n m -> Hm. simpl. now apply GatewayFacts.str_or_keeps.
  - intros Hm. now apply GatewayFacts.str_or_keeps.
  - intros ->. reflexivity.
  - unfold str_or. destruct (String.eqb_spec (message_of e) ""); auto.
Qed.

Lemma mutation_failure_message_witness :
  err (replay initial
         (Session.perform Scenario.BASE ""
            (Session.CallUpdateStatus Scenario.refusing 77 (JStr "solved"))))
    = "invalid status".
Proof.
  apply (proj1 (proj2 (mutation_failure_message Scenario.BASE ""
           (Session.CallUpdateStatus Scenario.refusing 77 (JStr "solved"))
           (patchTicket_call "" 77 (JObj [("status", JStr "solved")]))
           Scenario.refusing "Failed to update status" initial
           (Failure 400 "invalid status") eq_refl eq_refl)) 400 "invalid status").
  reflexivity.
Defined.

(** X12. A status change whose write is accepted but whose refresh fails
    ends with the message of the failed read in [err] and the ticket list
    it had before: nothing on the screen tells that the write went
    through. *)
Theorem accepted_write_failed_refresh (BASE tok : string) (w : World) (id : Z)
    (status v : jsval) (h : State) :
  fst (call BASE (write_answers w)
         (patchTicket_call tok id (JObj [("status", status)]))) = Resolved v ->
  (2 <= deliveries MeetingWindow (schedule w))%nat ->
  (2 <= deliveries Tickets (schedule w))%nat ->
  (exists e,
     fst (call BASE (mw_answers (server w)) (getMeetingWindow_call tok)) = Rejected e
     \/ fst (call BASE (tk_answers (server w)) (getTickets_call tok [])) = Rejected e) ->
  rows (replay h (updateStatus BASE tok w id status)) = rows h
  /\ err (replay h (updateStatus BASE tok w id status)) <> "".
Proof.
  intros Hw Dm Dt (e0 & H0).
  unfold updateStatus. rewrite (HookFacts.mutate_resolved _ _ _ _ _ v Hw).
  rewrite HookFacts.replay_app.
  rewrite (HookFacts.replay_setters (map Fetch _)), HookFacts.setters_fetches.
  change (replay h []) with h.
  rewrite <- (started_mw BASE tok (server w)) in H0.
  rewrite <- (started_tk BASE tok (server w) []) in H0.
  destruct (refresh_ends BASE tok (server w) [] (schedule w) h Dm Dt)
    as [(rd & e & Hr & E) | (v' & w' & Hv & Hw' & _)].
  - rewrite E. simpl. split; [reflexivity|].
    apply HookFacts.refresh_message_nonempty.
  - destruct H0; congruence.
Qed.

Lemma accepted_write_failed_refresh_witness :
  rows (replay initial
          (updateStatus Scenario.BASE ""
             {| write_answers := Scenario.always (Scenario.ok_with (JObj []));
                server := Scenario.window_down;
                schedule := [MeetingWindow; Tickets; MeetingWindow; Tickets] |}
             77 (JStr "solved"))) = rows initial
  /\ err (replay initial
            (updateStatus Scenario.BASE ""
               {| write_answers := Scenario.always (Scenario.ok_with (JObj []));
                  server := Scenario.window_down;
                  schedule := [MeetingWindow; Tickets; MeetingWindow; Tickets] |}
               77 (JStr "solved"))) <> "".
Proof.
  apply (accepted_write_failed_refresh Scenario.BASE ""
           {| write_answers := Scenario.always (Scenario.ok_with (JObj []));
              server := Scenario.window_down;
              schedule := [MeetingWindow; Tickets; MeetingWindow; Tickets] |}
           77 (JStr "solved") (JObj []) initial).
  - reflexivity.
  - unfold deliveries. simpl. lia.
  - unfold deliveries. simpl. lia.
  - eexists. left. reflexivity.
Defined.

End HookMore.

(* ================================================================== *)
(** ** The backend address                                             *)
(* ================================================================== *)

Module BackendFacts.
Import Gateway Backend.

Lemma setBackendBaseUrl_nonempty (BASE url : string) :
  BASE <> "" -> setBackendBaseUrl BASE url <> "".
Proof. intros H. now apply GatewayFacts.str_or_nonempty. Qed.

Lemma default_nonempty (env : string) : DEFAULT_BACKEND_BASE_URL env <> "".
Proof. apply GatewayFacts.str_or_nonempty. discriminate. Qed.

Lemma fold_setBackendBaseUrl (urls : list string) : forall BASE,
  fold_left setBackendBaseUrl urls BASE =
  match find (fun u => negb (u =? "")%string) (rev urls) with
  | Some u => u
  | None => BASE
  end.
Proof.
  induction urls as [|u urls IH] using rev_ind; intros BASE; [reflexivity|].
  rewrite fold_left_app, rev_app_distr. simpl.
  unfold setBackendBaseUrl at 1, str_or.
  destruct (u =? "")%string; simpl; [apply IH | reflexivity].
Qed.

(** X13. [BASE] starts from the configured default and is replaced by
    [setBackendBaseUrl]: after any number of calls it is the last url
    given that was not empty, the default when there was none, and it is
    never empty. *)
Theorem base_url_is_last_given (env : string) (urls : list string) :
  fold_left setBackendBaseUrl urls (DEFAULT_BACKEND_BASE_URL env)
    = match find (fun u => negb (u =? "")%string) (rev urls) with
      | Some u => u
      | None => DEFAULT_BACKEND_BASE_URL env
      end
  /\ fold_left setBackendBaseUrl urls (DEFAULT_BACKEND_BASE_URL env) <> "".
Proof.
  split; [apply fold_setBackendBaseUrl|].
  generalize (default_nonempty env).
  generalize (DEFAULT_BACKEND_BASE_URL env).
  induction urls as [|u urls IH]; intros B HB; [exact HB|].
  simpl. apply IH. now apply setBackendBaseUrl_nonempty.
Qed.

End BackendFacts.

(* ================================================================== *)
(** ** More on the row                                                 *)
(* ================================================================== *)

Module RowMore.
Import Gateway Trace TicketRow RowControls Observe.

(** X14. Choosing a status in a row sends, as first request, the PATCH of
    that ticket with the body [{ status: s }], the status at top level,
    and the row shows [s] from then on whatever becomes of the write. *)
Theorem status_change_payload (BASE tok : string) (w : Hook.World) (t_id : Z)
    (s : string) :
  fst (DashboardView.changeStatus BASE tok w t_id s) = JStr s
  /\ exists rq rest,
       snd (DashboardView.changeStatus BASE tok w t_id s) = Fetch rq :: rest
       /\ method rq = "PATCH"
       /\ url rq = BASE ++ "/api/tickets/" ++ String_of_Z t_id
       /\ body rq = Some (JObj [("status", JStr s)]).
Proof.
  split; [reflexivity|].
  unfold DashboardView.changeStatus, onStatusChange, Hook.updateStatus. simpl.
  destruct (HookFacts.mutate_first BASE tok w
              (patchTicket_call tok t_id (JObj [("status", JStr s)]))
              "Failed to update status") as [rest E].
  rewrite E. do 2 eexists. split; [reflexivity|]. repeat split.
Qed.

(** [String] tells integers apart. *)
Lemma String_of_Z_inj (n m : Z) : String_of_Z n = String_of_Z m -> n = m.
Proof.
  unfold String_of_Z. intros H.
  apply DecimalZ.to_int_inj.
  assert (Hn : forall z, Z.to_int z <> Decimal.Pos Decimal.Nil /\
                         Z.to_int z <> Decimal.Neg Decimal.Nil).
  { intros [|p|p]; simpl; split; try discriminate;
      intros E; inversion E as [E'];
      exact (DecimalPos.Unsigned.to_uint_nonnil p E'). }
  destruct (Hn n) as [N1 N2]. destruct (Hn m) as [M1 M2].
  pose proof (NilZero.isi _ N1 N2) as In.
  pose proof (NilZero.isi _ M1 M2) as Im.
  rewrite H in In. congruence.
Qed.

Lemma find_selected_own (users : list Agent) (u : Agent) :
  NoDup (map id users) -> In u users ->
  find_selected users (String_of_Z (id u)) = Some u.
Proof.
  unfold find_selected.
  induction users as [|x users IH]; intros Hnd Hin; [contradiction|].
  inversion Hnd as [|? ? Hnotin Hnd']; subst. simpl.
  destruct (String.eqb_spec (String_of_Z (id x)) (String_of_Z (id u)))
    as [E|NE].
  - apply String_of_Z_inj in E. destruct Hin as [->|Hin]; [reflexivity|].
    exfalso. apply Hnotin. rewrite E. now apply in_map.
  - destruct Hin as [->|Hin]; [congruence|]. now apply IH.
Qed.

(** X15. Every value the assignee select offers for a loaded list of
    users with distinct identifiers is handled as meant: the placeholder
    makes the row call nothing, and the option of a user finds that very
    user, so that the branch for a value that is not in the list is never
    taken from the rendered options. *)
Theorem offered_options_are_found (Number : string -> jsval)
    (onReassign : Z -> jsval -> list Event) (users : list Agent) (t_id : Z)
    (v : string) :
  NoDup (map id users) ->
  In v (option_values false users) ->
  (v = "" /\
   onAssigneeChange Number onReassign users t_id v = [SetAssignee (JStr "")])
  \/ (exists u, In u users /\ v = String_of_Z (id u) /\
                find_selected users v = Some u /\
                onAssigneeChange Number onReassign users t_id v
                  = SetAssignee (JStr v) :: SetGroup (group_id u) ::
                    onReassign t_id
                      (JObj [("assignee_id", JNum (id u));
                             ("group_id", group_id u)])).
Proof.
  intros Hnd [<- | Hin].
  - left. split; reflexivity.
  - right. simpl in Hin. apply in_map_iff in Hin as (u & <- & Hu).
    exists u. pose proof (find_selected_own users u Hnd Hu) as Hf.
    repeat split; auto.
    unfold onAssigneeChange.
    rewrite (RowFacts.selection_truthy _ _ _ Hf), Hf. reflexivity.
Qed.

Lemma offered_options_are_found_witness :
  ("2" = "" /\
   onAssigneeChange Scenario.Number_decimal (fun _ _ => []) Scenario.candidates
     77 "2" = [SetAssignee (JStr "")])
  \/ (exists u, In u Scenario.candidates /\ "2" = String_of_Z (id u) /\
                find_selected Scenario.candidates "2" = Some u /\
                onAssigneeChange Scenario.Number_decimal (fun _ _ => [])
                  Scenario.candidates 77 "2"
                  = SetAssignee (JStr "2") :: SetGroup (group_id u) ::
                    (fun _ _ => []) 77
                      (JObj [("assignee_id", JNum (id u));
                             ("group_id", group_id u)])).
Proof.
  apply (offered_options_are_found Scenario.Number_decimal (fun _ _ => [])
           Scenario.candidates 77 "2").
  - repeat constructor; simpl; intuition discriminate.
  - simpl. auto.
Defined.

End RowMore.

(* ================================================================== *)
(** ** More on the notes editor                                        *)
(* ================================================================== *)

Module NotesMore.
Import NotesEditor NotesView.

Section Stripping.

Variable p1 : ascii -> bool.
Variable p2 : ascii -> ascii -> bool.
Variable p3 : ascii -> ascii -> ascii -> bool.

Lemma strip_front (s : string) :
  strip p1 p2 p3 s =
  match front p1 p2 p3 s with
  | Some r => strip p1 p2 p3 r
  | None => s
  end.
Proof.
  destruct s as [|c1 [|c2 [|c3 r3]]]; simpl; try reflexivity.
  - destruct (p1 c1); reflexivity.
  - destruct (p1 c1); [reflexivity|]. destruct (p2 c1 c2); reflexivity.
  - destruct (p1 c1); [reflexivity|]. destruct (p2 c1 c2); [reflexivity|].
    destruct (p3 c1 c2 c3); reflexivity.
Qed.

Lemma front_shorter (s r : string) :
  front p1 p2 p3 s = Some r -> (String.length r < String.length s)%nat.
Proof.
  destruct s as [|c1 [|c2 [|c3 r3]]]; simpl; try discriminate.
  - destruct (p1 c1); intros H; inversion H; simpl; lia.
  - destruct (p1 c1); [intros H; inversion H; simpl; lia|].
    destruct (p2 c1 c2); intros H; inversion H; simpl; lia.
  - destruct (p1 c1); [intros H; inversion H; simpl; lia|].
    destruct (p2 c1 c2); [intros H; inversion H; simpl; lia|].
    destruct (p3 c1 c2 c3); intros H; inversion H; simpl; lia.
Qed.

(** What [strip] returns starts with nothing it would drop. *)
Lemma strip_clean_upto (n : nat) : forall s,
  (String.length s <= n)%nat -> front p1 p2 p3 (strip p1 p2 p3 s) = None.
Proof.
  induction n as [|n IH]; intros s Hn.
  - destruct s; [reflexivity | simpl in Hn; lia].
  - rewrite strip_front. destruct (front p1 p2 p3 s) as [r|] eqn:E.
    + apply IH. apply front_shorter in E. lia.
    + exact E.
Qed.

Lemma strip_clean (s : string) : front p1 p2 p3 (strip p1 p2 p3 s) = None.
Proof. apply (strip_clean_upto (String.length s)). lia. Qed.

Lemma strip_of_clean (s : string) :
  front p1 p2 p3 s = None -> strip p1 p2 p3 s = s.
Proof. intros H. now rewrite strip_front, H. Qed.

Lemma strip_idempotent (s : string) :
  strip p1 p2 p3 (strip p1 p2 p3 s) = strip p1 p2 p3 s.
Proof. apply strip_of_clean, strip_clean. Qed.

(** [strip] returns an end of its argument. *)
Lemma strip_suffix_upto (n : nat) : forall s,
  (String.length s <= n)%nat -> exists pre, s = pre ++ strip p1 p2 p3 s.
Proof.
  induction n as [|n IH]; intros s Hn.
  - destruct s; [now exists "" | simpl in Hn; lia].
  - rewrite strip_front. destruct (front p1 p2 p3 s) as [r|] eqn:E.
    + pose proof (front_shorter _ _ E) as Hlt.
      destruct (IH r) as [pre Hpre]; [lia|].
      assert (Hs : exists a, s = a ++ r).
      { revert E. clear.
        destruct s as [|c1 [|c2 [|c3 r3]]]; simpl; try discriminate.
        - destruct (p1 c1); intros H; inversion H.
          now exists (String c1 "").
        - destruct (p1 c1); [intros H; inversion H; now exists (String c1 "")|].
          destruct (p2 c1 c2); intros H; inversion H.
          now exists (String c1 (String c2 "")).
        - destruct (p1 c1); [intros H; inversion H; now exists (String c1 "")|].
          destruct (p2 c1 c2);
            [intros H; inversion H; now exists (String c1 (String c2 ""))|].
          destruct (p3 c1 c2 c3); intros H; inversion H.
          now exists (String c1 (String c2 (String c3 ""))). }
      destruct Hs as [a ->]. exists (a ++ pre).
      rewrite GatewayFacts.append_assoc. now rewrite <- Hpre.
    + now exists "".
Qed.

Lemma strip_suffix (s : string) : exists pre, s = pre ++ strip p1 p2 p3 s.
Proof. apply (strip_suffix_upto (String.length s)). lia. Qed.

(** A string that starts with nothing to drop has no beginning that
    does. *)
Lemma front_of_prefix (a z : string) :
  front p1 p2 p3 (a ++ z) = None -> front p1 p2 p3 a = None.
Proof.
  destruct a as [|c1 [|c2 [|c3 r3]]]; simpl; try reflexivity.
  - destruct (p1 c1); [|reflexivity]. destruct z; discriminate.
  - destruct (p1 c1); [discriminate|].
    destruct (p2 c1 c2); [|reflexivity]. destruct z; discriminate.
  - destruct (p1 c1); [discriminate|].
    destruct (p2 c1 c2); [discriminate|].
    destruct (p3 c1 c2 c3); [discriminate | reflexivity].
Qed.

End Stripping.

Lemma list_of_append (a b : string) :
  list_ascii_of_string (a ++ b)
  = (list_ascii_of_string a ++ list_ascii_of_string b)%list.
Proof. induction a as [|c a IH]; simpl; [reflexivity | now rewrite IH]. Qed.

Lemma string_of_app (l1 l2 : list ascii) :
  string_of_list_ascii (l1 ++ l2)
  = string_of_list_ascii l1 ++ string_of_list_ascii l2.
Proof. induction l1 as [|c l IH]; simpl; [reflexivity | now rewrite IH]. Qed.

Lemma reverse_involutive (s : string) : reverse (reverse s) = s.
Proof.
  unfold reverse.
  now rewrite list_ascii_of_string_of_list_ascii, rev_involutive,
    string_of_list_ascii_of_string.
Qed.

Lemma reverse_append (a b : string) :
  reverse (a ++ b) = reverse b ++ reverse a.
Proof.
  unfold reverse. now rewrite list_of_append, rev_app_distr, string_of_app.
Qed.

(** [trim_end] returns a beginning of its argument. *)
Lemma trim_end_prefix (s : string) : exists z, s = trim_end s ++ z.
Proof.
  unfold trim_end.
  destruct (strip_suffix is_space (fun c1 c2 => is_space2 c2 c1)
              (fun c1 c2 c3 => is_space3 c3 c2 c1) (reverse s)) as [pre E].
  exists (reverse pre).
  rewrite <- reverse_append, <- E. symmetry. apply reverse_involutive.
Qed.

Lemma trim_end_idempotent (s : string) : trim_end (trim_end s) = trim_end s.
Proof.
  unfold trim_end. rewrite reverse_involutive. now rewrite strip_idempotent.
Qed.

Lemma trim_idempotent (s : string) : trim (trim s) = trim s.
Proof.
  unfold trim.
  assert (H : trim_start (trim_end (trim_start s)) = trim_end (trim_start s)).
  { unfold trim_start at 1. apply strip_of_clean.
    destruct (trim_end_prefix (trim_start s)) as [z E].
    apply (front_of_prefix _ _ _ _ z). rewrite <- E.
    apply strip_clean. }
  rewrite H. apply trim_end_idempotent.
Qed.

(** The white space of the language is more than that of ASCII: a text of
    one no-break space submits nothing, and a no-break space or a byte
    order mark around a note is dropped. *)
Example trim_beyond_ascii :
  submitted {| text := Scenario.nbsp; isPublic := false |} = None
  /\ submitted {| text := Scenario.nbsp ++ "x"; isPublic := false |}
     = Some ("x", false)
  /\ trim (String (ascii_of_nat 239) (String (ascii_of_nat 187)
             (String (ascii_of_nat 191) "x")) ++ Scenario.nbsp) = "x".
Proof. repeat split. Qed.

(** X16. Whatever the editor holds, a click on Add submits at most one
    note: the body it hands over is the text of the editor trimmed, it is
    not empty and has no white space left to trim at either end, the
    public flag is the one of the editor, and the editor is left empty, so
    that a second click submits nothing. *)
Theorem submitted_note_is_trimmed (s : State) (body : string) (pub : bool) :
  submitted s = Some (body, pub) ->
  body <> "" /\ trim body = body /\ pub = isPublic s
  /\ text (after_click s) = ""
  /\ submitted (after_click s) = None
  /\ body = trim (text s).
Proof.
  unfold submitted, after_click, onAddClick.
  rewrite RowFacts.truthy_str.
  destruct (String.eqb_spec (trim (text s)) "") as [E|NE]; simpl.
  - discriminate.
  - intros H. inversion H; subst. repeat split; auto.
    apply trim_idempotent.
Qed.

Lemma submitted_note_is_trimmed_witness :
  "seen" <> "" /\ trim "seen" = "seen"
  /\ true = isPublic {| text := Scenario.nbsp ++ " seen " ++ Scenario.nbsp;
                        isPublic := true |}
  /\ text (after_click {| text := Scenario.nbsp ++ " seen " ++ Scenario.nbsp;
                          isPublic := true |}) = ""
  /\ submitted (after_click {| text := Scenario.nbsp ++ " seen " ++ Scenario.nbsp;
                               isPublic := true |}) = None
  /\ "seen" = trim (text {| text := Scenario.nbsp ++ " seen " ++ Scenario.nbsp;
                            isPublic := true |}).
Proof.
  apply (submitted_note_is_trimmed
           {| text := Scenario.nbsp ++ " seen " ++ Scenario.nbsp; isPublic := true |}
           "seen" true).
  reflexivity.
Defined.

End NotesMore.

(* ================================================================== *)
(** ** Loading the users                                               *)
(* ================================================================== *)

Module UsersFacts.
Import Gateway Backend.

(** X17. [useUsers.refresh] always ends with loading cleared. When the
    call fails the list of users is kept and [err] holds a message that is
    not empty; when it succeeds [err] is empty and the list is the [users]
    of the answer, the empty list when the answer has none, also for an
    answer that is [null]. One call is made, with its retry at most. *)
Theorem users_refresh_outcome (BASE tok : string) (srv : nat -> FetchOutcome)
    (h : UsersHook.State) :
  UsersHook.loading (fst (UsersHook.refresh BASE tok srv h)) = false
  /\ (forall e, fst (call BASE srv (getUsers_call tok)) = Rejected e ->
        UsersHook.users (fst (UsersHook.refresh BASE tok srv h)) = UsersHook.users h
        /\ UsersHook.err (fst (UsersHook.refresh BASE tok srv h)) <> "")
  /\ (forall data, fst (call BASE srv (getUsers_call tok)) = Resolved data ->
        UsersHook.err (fst (UsersHook.refresh BASE tok srv h)) = ""
        /\ (data = JNull ->
            UsersHook.users (fst (UsersHook.refresh BASE tok srv h)) = JArr [])
        /\ (forall fields, data = JObj fields ->
            UsersHook.users (fst (UsersHook.refresh BASE tok srv h))
              = or_else (get "users" fields) (JArr [])))
  /\ (1 <= List.length (snd (UsersHook.refresh BASE tok srv h)) <= 2)%nat
  /\ (forall r, In r (snd (UsersHook.refresh BASE tok srv h)) ->
        method r = "GET" /\ url r = BASE ++ "/api/users" /\ body r = None).
Proof.
  unfold UsersHook.refresh.
  pose proof (GatewayFacts.req_from_attempts srv 0 1) as Hlo.
  pose proof (GatewayFacts.req_from_bounded srv 0 1) as Hhi.
  pose proof (HookMore.call_requests BASE srv (getUsers_call tok)) as Hrq.
  pose proof (GatewayFacts.req_sent BASE srv "/api/users" (defaults tok)) as Hs.
  unfold call in *. simpl fst in *. simpl snd in *.
  destruct (req BASE srv "/api/users" (defaults tok)) as [s sent].
  simpl in *. subst sent.
  split; [destruct s; reflexivity|].
  split.
  { intros e ->. split; [reflexivity|]. simpl.
    apply GatewayFacts.str_or_nonempty. discriminate. }
  split.
  { intros data ->. split; [reflexivity|]. split.
    - intros ->. reflexivity.
    - intros fields ->. reflexivity. }
  split.
  { rewrite repeat_length. lia. }
  intros r H. rewrite (Hrq r H). repeat split.
Qed.

Lemma users_refresh_outcome_witness :
  UsersHook.users
    (fst (UsersHook.refresh Scenario.BASE ""
            (Scenario.always (Scenario.failing 500 "Internal Server Error" "boom"))
            {| UsersHook.users := JArr [JNum 1]; UsersHook.loading := false;
               UsersHook.err := "" |}))
  = JArr [JNum 1]
  /\ UsersHook.err
       (fst (UsersHook.refresh Scenario.BASE ""
               (Scenario.always (Scenario.failing 500 "Internal Server Error" "boom"))
               {| UsersHook.users := JArr [JNum 1]; UsersHook.loading := false;
                  UsersHook.err := "" |})) <> "".
Proof.
  apply (proj1 (proj2 (users_refresh_outcome Scenario.BASE ""
           (Scenario.always (Scenario.failing 500 "Internal Server Error" "boom"))
           {| UsersHook.users := JArr [JNum 1]; UsersHook.loading := false;
              UsersHook.err := "" |})) (Failure 500 "boom")).
  reflexivity.
Defined.

(** X18. The effect that loads the users of a row does nothing without a
    token: no request is sent and the select stays disabled, offering the
    placeholder alone. The dashboard passes no token to the table, nor the
    table to its rows, so this is how every row of the dashboard stands,
    whatever the server would answer. With a token the effect always ends
    with the select enabled, and a failed load keeps the users it had. *)
Theorem users_never_load_without_token (BASE token : string)
    (srv : nat -> FetchOutcome) (st : RowControls.Loaded) :
  RowControls.load_users BASE "" srv st = (st, [])
  /\ RowControls.load_users BASE
       (DashboardView.row_authToken (DashboardView.table_authToken token))
       srv RowControls.not_loaded
     = (RowControls.not_loaded, [])
  /\ RowControls.select_disabled RowControls.not_loaded = true
  /\ (forall users,
        RowControls.option_values
          (RowControls.loadingUsers RowControls.not_loaded) users = [""])
  /\ (token <> "" ->
      RowControls.select_disabled
        (fst (RowControls.load_users BASE token srv st)) = false
      /\ (forall e,
            fst (call BASE srv (getUsers_call token)) = Rejected e ->
            RowControls.users (fst (RowControls.load_users BASE token srv st))
              = RowControls.users st)).
Proof.
  repeat split.
  - unfold RowControls.load_users. rewrite RowFacts.truthy_str.
    apply String.eqb_neq in H. rewrite H. simpl.
    destruct (call BASE srv (getUsers_call token)) as [[[]|e] sent];
      reflexivity.
  - unfold RowControls.load_users. rewrite RowFacts.truthy_str.
    apply String.eqb_neq in H. rewrite H. simpl.
    destruct (call BASE srv (getUsers_call token)) as [s sent].
    simpl in *. intros e ->. reflexivity.
Qed.

Lemma users_never_load_without_token_witness :
  RowControls.select_disabled
    (fst (RowControls.load_users Scenario.BASE "secret"
            (Scenario.always (Scenario.failing 500 "Internal Server Error" "boom"))
            RowControls.not_loaded)) = false.
Proof.
  apply (users_never_load_without_token Scenario.BASE "secret"
           (Scenario.always (Scenario.failing 500 "Internal Server Error" "boom"))
           RowControls.not_loaded).
  discriminate.
Defined.

End UsersFacts.

(* ================================================================== *)
(** ** The counts of the dashboard                                     *)
(* ================================================================== *)

Module CountsFacts.
Import DashboardView.

Lemma count_of_put (k k' : string) (v : nat) (m : Counts) :
  count_of k (put k' v m) = if (k' =? k)%string then v else count_of k m.
Proof.
  induction m as [|[k0 n] m IH]; simpl.
  - destruct (k' =? k)%string; reflexivity.
  - destruct (String.eqb_spec k0 k') as [->|Hne]; simpl.
    + destruct (k' =? k)%string; reflexivity.
    + destruct (String.eqb_spec k0 k) as [->|Hne2].
      * apply String.eqb_neq in Hne. rewrite String.eqb_sym in Hne.
        now rewrite Hne.
      * exact IH.
Qed.

Lemma count_of_fold (rows : list Ticket) : forall (m : Counts) (k : string),
  count_of k
    (fold_left (fun m r => put (bucket_key r) (count_of (bucket_key r) m + 1) m)
       rows m)
  = (count_of k m
     + List.length (filter (fun r => (bucket_key r =? k)%string) rows))%nat.
Proof.
  induction rows as [|r rows IH]; intros m k; simpl; [lia|].
  rewrite IH, count_of_put.
  destruct (String.eqb_spec (bucket_key r) k) as [->|Hne]; simpl; lia.
Qed.

Lemma known_split (rows : list Ticket) :
  List.length (filter known_bucket rows)
  = (List.length (filter (fun r => (bucket_key r =? "Over 30 Days")%string) rows)
     + List.length (filter (fun r => (bucket_key r =? "Over 20 Days")%string) rows)
     + List.length (filter (fun r => (bucket_key r =? "Over 10 Days")%string) rows)
     + List.length (filter (fun r => (bucket_key r =? "Under 10 Days")%string) rows))%nat.
Proof.
  induction rows as [|r rows IH]; [reflexivity|].
  cbn [filter]. unfold known_bucket at 1. cbn [existsb].
  rewrite !(String.eqb_sym _ (bucket_key r)).
  destruct (String.eqb_spec (bucket_key r) "Over 30 Days") as [E1|N1];
  destruct (String.eqb_spec (bucket_key r) "Over 20 Days") as [E2|N2];
  destruct (String.eqb_spec (bucket_key r) "Over 10 Days") as [E3|N3];
  destruct (String.eqb_spec (bucket_key r) "Under 10 Days") as [E4|N4];
    try congruence; cbn [orb List.length]; lia.
Qed.

Lemma filter_length_le {A} (f : A -> bool) (l : list A) :
  (List.length (filter f l) <= List.length l)%nat.
Proof. induction l as [|x l IH]; simpl; [lia|]. destruct (f x); simpl; lia. Qed.

Lemma filter_all {A} (f : A -> bool) (l : list A) :
  forallb f l = true -> filter f l = l.
Proof.
  induction l as [|x l IH]; simpl; [reflexivity|].
  intros H. apply andb_true_iff in H as [Hx Hl]. rewrite Hx. now rewrite IH.
Qed.

Lemma filteredRows_length (rows : list Ticket) (tab : string) :
  (List.length (filteredRows rows tab) <= List.length rows)%nat.
Proof.
  unfold filteredRows. destruct (tab =? "All")%string; [lia|].
  apply filter_length_le.
Qed.

(** X19. The four pills add up to the number of rows of the selected tab
    whose age bucket is one of the four they name: to the number of rows
    shown when every row has such a bucket, and to less when a row has
    another bucket or none (that row is counted under a key of its own
    that no pill shows). *)
Theorem pills_count_known_buckets (rows : list Ticket) (tab : string) :
  list_sum (pills (counts (filteredRows rows tab)))
    = List.length (filter known_bucket (filteredRows rows tab))
  /\ (list_sum (pills (counts (filteredRows rows tab)))
      <= List.length (filteredRows rows tab) <= List.length rows)%nat
  /\ (forallb known_bucket (filteredRows rows tab) = true ->
      list_sum (pills (counts (filteredRows rows tab)))
        = List.length (filteredRows rows tab)).
Proof.
  assert (E : list_sum (pills (counts (filteredRows rows tab)))
              = List.length (filter known_bucket (filteredRows rows tab))).
  { unfold pills, counts. simpl list_sum.
    rewrite !count_of_fold, known_split. simpl. lia. }
  split; [exact E|]. split.
  - rewrite E. split; [apply filter_length_le | apply filteredRows_length].
  - intros H. rewrite E. now rewrite filter_all.
Qed.

Lemma pills_count_known_buckets_witness :
  list_sum
    (pills (counts (filteredRows
                      [ {| group := Some "AIMS"; ageBucket := Some "Over 30 Days" |};
                        {| group := Some "Policy"; ageBucket := Some "Under 10 Days" |} ]
                      "All")))
  = List.length
      (filteredRows
         [ {| group := Some "AIMS"; ageBucket := Some "Over 30 Days" |};
           {| group := Some "Policy"; ageBucket := Some "Under 10 Days" |} ]
         "All").
Proof.
  apply (pills_count_known_buckets
           [ {| group := Some "AIMS"; ageBucket := Some "Over 30 Days" |};
             {| group := Some "Policy"; ageBucket := Some "Under 10 Days" |} ]
           "All").
  reflexivity.
Defined.

End CountsFacts.

(* ================================================================== *)
(** ** The SDK helper                                                  *)
(* ================================================================== *)

Module ZafFacts.
Import Gateway Zaf.

Lemma parameters_truthy (answer p : jsval) :
  parameters_of answer = Some p -> truthy p = true.
Proof.
  destruct answer; simpl; try discriminate;
    try (intros H; inversion H; reflexivity).
  unfold or_else. intros H. inversion H.
  destruct (truthy _) eqn:E; [exact E | reflexivity].
Qed.

Lemma look_up_caches (c : Cache) (sdk : Sdk) :
  truthy (fst (fst (look_up c sdk))) = true
  /\ cachedParams (snd (fst (look_up c sdk))) = Some (fst (fst (look_up c sdk)))
  /\ (List.length (snd (look_up c sdk)) <= 2)%nat.
Proof.
  unfold look_up, zaf.
  destruct (client c); simpl.
  - destruct (get_app sdk) as [answer|e]; simpl; [|repeat split; lia].
    destruct (parameters_of answer) as [p|] eqn:E; simpl; repeat split; try lia.
    exact (parameters_truthy _ _ E).
  - destruct (available sdk); simpl; [|repeat split; lia].
    destruct (init_ok sdk); simpl; [|repeat split; lia].
    destruct (get_app sdk) as [answer|e]; simpl; [|repeat split; lia].
    destruct (parameters_of answer) as [p|] eqn:E; simpl; repeat split; try lia.
    exact (parameters_truthy _ _ E).
Qed.

Lemma getAppParams_caches (c : Cache) (sdk : Sdk) :
  truthy (fst (fst (getAppParams c sdk))) = true
  /\ cachedParams (snd (fst (getAppParams c sdk)))
     = Some (fst (fst (getAppParams c sdk))).
Proof.
  unfold getAppParams.
  destruct (cachedParams c) as [p|] eqn:E.
  - destruct (truthy p) eqn:T; simpl.
    + now split.
    + destruct (look_up_caches c sdk) as (A & B & _). now split.
  - destruct (look_up_caches c sdk) as (A & B & _). now split.
Qed.

(** X20. [getAppParams] asks the SDK once: whatever the first call found,
    the parameters of the manifest or the empty object it falls back on
    when the SDK is missing or fails, every later call returns that same
    value without touching the SDK, even when the SDK would now answer
    otherwise. A call makes two SDK calls at most, and after
    [resetZafCache] the SDK is asked again when it is there. *)
Theorem app_params_are_cached (c : Cache) (sdk later : Sdk) :
  getAppParams (snd (fst (getAppParams c sdk))) later
    = (fst (fst (getAppParams c sdk)), snd (fst (getAppParams c sdk)), [])
  /\ (List.length (snd (getAppParams c sdk)) <= 2)%nat
  /\ (available later = true ->
      snd (getAppParams (resetZafCache (snd (fst (getAppParams c sdk)))) later)
        <> []).
Proof.
  split; [|split].
  - destruct (getAppParams_caches c sdk) as [T C].
    unfold getAppParams at 1. rewrite C, T. reflexivity.
  - unfold getAppParams.
    destruct (cachedParams c) as [p|].
    + destruct (truthy p); simpl; [lia|]. apply look_up_caches.
    + apply look_up_caches.
  - intros H. unfold resetZafCache, getAppParams, look_up, zaf. simpl.
    rewrite H. simpl.
    destruct (init_ok later); simpl; [|discriminate].
    destruct (get_app later) as [answer|e]; simpl; [|discriminate].
    destruct (parameters_of answer); discriminate.
Qed.

Lemma app_params_are_cached_witness :
  snd (getAppParams
         (resetZafCache
            (snd (fst (getAppParams empty_cache
                         {| available := false; init_ok := false;
                            get_app := Resolved JNull |}))))
         {| available := true; init_ok := true;
            get_app := Resolved (JObj [("app", JObj [("parameters",
                         JObj [("BACKEND_BASE_URL", JStr "https://api.example")])])]) |})
  <> [].
Proof.
  apply (app_params_are_cached empty_cache
           {| available := false; init_ok := false; get_app := Resolved JNull |}
           {| available := true; init_ok := true;
              get_app := Resolved (JObj [("app", JObj [("parameters",
                           JObj [("BACKEND_BASE_URL", JStr "https://api.example")])])]) |}).
  reflexivity.
Defined.

End ZafFacts.

(* ================================================================== *)
(** ** The preview page                                                *)
(* ================================================================== *)

Module PreviewFacts.
Import Gateway Preview.

Lemma strip_no_slash (s : string) (c : ascii) :
  Ascii.eqb c "/" = false ->
  strip_trailing_slash (s ++ String c "") = s ++ String c "".
Proof.
  intros H. induction s as [|x s IH]; simpl.
  - now rewrite H.
  - rewrite IH. destruct (s ++ String c "") eqn:E; [|reflexivity].
    destruct s; discriminate.
Qed.

Lemma strip_added_slash (s : string) :
  strip_trailing_slash (s ++ "/") = s.
Proof.
  induction s as [|x s IH]; [reflexivity|].
  simpl. rewrite IH. destruct (s ++ "/") eqn:E; [|reflexivity].
  destruct s; discriminate.
Qed.

Lemma strip_unchanged (s : string) :
  ends_with_slash s = false -> strip_trailing_slash s = s.
Proof.
  induction s as [|x s IH]; intros H; [reflexivity|].
  simpl in *. destruct s as [|y s].
  - now rewrite H.
  - f_equal. now apply IH.
Qed.

Lemma remove_muted (l : list string) : ~ In "muted" (classList_remove "muted" l).
Proof.
  unfold classList_remove. intros H. apply filter_In in H as [_ H].
  now rewrite String.eqb_refl in H.
Qed.

Lemma add_In (c x : string) (l : list string) :
  In x (classList_add c l) <-> x = c \/ In x l.
Proof.
  unfold classList_add.
  destruct (existsb (fun y => (y =? c)%string) l) eqn:E.
  - split; [auto|]. intros [->|H]; [|exact H].
    apply existsb_exists in E as (y & Hy & Hc).
    apply String.eqb_eq in Hc. now subst.
  - rewrite in_app_iff. simpl. intuition.
Qed.

Lemma remove_In (c x : string) (l : list string) :
  In x (classList_remove c l) <-> In x l /\ x <> c.
Proof.
  unfold classList_remove. rewrite filter_In.
  rewrite negb_true_iff, String.eqb_neq. tauto.
Qed.

Lemma show_classes (t cls x : string) (el : Element) :
  In x (classes (show t cls el)) <-> x = cls \/ (In x (classes el) /\ x <> "muted").
Proof. unfold show. simpl. now rewrite add_In, remove_In. Qed.

(** The element [pingHealth] leaves is [show t cls el] with [cls] one of
    [ok] and [err]. *)
Lemma pingHealth_shows baseUrl apiKey answer el :
  exists t cls, fst (pingHealth baseUrl apiKey answer el) = show t cls el
                /\ (cls = "ok" \/ cls = "err").
Proof.
  unfold pingHealth.
  destruct (truthy baseUrl); [|do 2 eexists; split; [reflexivity|auto]].
  destruct baseUrl; try (do 2 eexists; split; [reflexivity|auto]).
  simpl. destruct answer as [r|m|m];
    try (do 2 eexists; split; [reflexivity|auto]).
  destruct (ok r); [|do 2 eexists; split; [reflexivity|auto]].
  destruct (json r) as [m|data]; [do 2 eexists; split; [reflexivity|auto]|].
  destruct (health_text data); do 2 eexists; split; try reflexivity; auto.
Qed.

(** X21. [pingHealth] sends one request at most and never tries again.
    Without a base URL it sends none. For a base URL that is a string it
    asks [base/health], a slash at the end of the base dropped, so that
    [base] and [base/] ask the same URL. Whatever happens, the element is
    left without the class [muted] and, when it had neither, with exactly
    one of the classes [ok] and [err]. *)
Theorem pingHealth_request_and_classes (baseUrl apiKey : jsval)
    (answer : FetchOutcome) (el : Element) :
  (List.length (snd (pingHealth baseUrl apiKey answer el)) <= 1)%nat
  /\ (truthy baseUrl = false ->
      snd (pingHealth baseUrl apiKey answer el) = [] /\
      textContent (fst (pingHealth baseUrl apiKey answer el))
        = "(missing BACKEND_BASE_URL)")
  /\ (forall base, base <> "" -> ends_with_slash base = false ->
        map url (snd (pingHealth (JStr base) apiKey answer el))
          = [base ++ "/health"]
        /\ snd (pingHealth (JStr (base ++ "/")) apiKey answer el)
           = snd (pingHealth (JStr base) apiKey answer el))
  /\ ~ In "muted" (classes (fst (pingHealth baseUrl apiKey answer el)))
  /\ (~ In "ok" (classes el) -> ~ In "err" (classes el) ->
      (In "ok" (classes (fst (pingHealth baseUrl apiKey answer el)))
       /\ ~ In "err" (classes (fst (pingHealth baseUrl apiKey answer el))))
      \/ (In "err" (classes (fst (pingHealth baseUrl apiKey answer el)))
          /\ ~ In "ok" (classes (fst (pingHealth baseUrl apiKey answer el))))).
Proof.
  destruct (pingHealth_shows baseUrl apiKey answer el) as (t & cls & E & Hc).
  split; [|split; [|split; [|split]]].
  - unfold pingHealth. destruct (truthy baseUrl); [|simpl; lia].
    destruct baseUrl; simpl; lia.
  - intros H. unfold pingHealth. rewrite H. split; reflexivity.
  - intros base Hne Hns.
    assert (T : truthy (JStr base) = true).
    { simpl. apply negb_true_iff, String.eqb_neq, Hne. }
    assert (T' : truthy (JStr (base ++ "/")) = true).
    { simpl. apply negb_true_iff, String.eqb_neq.
      destruct base; discriminate. }
    unfold pingHealth. rewrite T, T'. simpl.
    unfold health_request. rewrite strip_added_slash.
    rewrite (strip_unchanged base Hns). split; reflexivity.
  - rewrite E. rewrite show_classes. intros [H|[_ H]]; [|now apply H].
    destruct Hc; subst; discriminate.
  - intros Hok Herr. rewrite E. rewrite !show_classes.
    destruct Hc as [-> | ->].
    + left. split; [now left|]. intros [H|[H _]]; [discriminate | now apply Herr].
    + right. split; [now left|]. intros [H|[H _]]; [discriminate | now apply Hok].
Qed.

Lemma pingHealth_request_and_classes_witness :
  map url (snd (pingHealth (JStr "http://localhost:8080") JNull
                  (Scenario.ok_with (JObj [("status", JStr "ok")]))
                  {| textContent := "checking"; classes := ["muted"] |}))
    = ["http://localhost:8080" ++ "/health"]
  /\ snd (pingHealth (JStr ("http://localhost:8080" ++ "/")) JNull
            (Scenario.ok_with (JObj [("status", JStr "ok")]))
            {| textContent := "checking"; classes := ["muted"] |})
     = snd (pingHealth (JStr "http://localhost:8080") JNull
              (Scenario.ok_with (JObj [("status", JStr "ok")]))
              {| textContent := "checking"; classes := ["muted"] |}).
Proof.
  apply (pingHealth_request_and_classes (JStr "http://localhost:8080") JNull
           (Scenario.ok_with (JObj [("status", JStr "ok")]))
           {| textContent := "checking"; classes := ["muted"] |}).
  - discriminate.
  - reflexivity.
Defined.

End PreviewFacts.

Module PreviewMore.
Import Gateway Preview.

Lemma pick_never_undefined (a b : string) (o : Fields) :
  (truthy (fst (pick a b o)) = true \/ fst (pick a b o) = JStr "")
  /\ (truthy (snd (pick a b o)) = true \/ snd (pick a b o) = JStr "").
Proof.
  unfold pick, or_else. simpl.
  destruct (truthy (get a o)) eqn:A; destruct (truthy (get b o)) eqn:B; auto.
Qed.

(** X22. [readParams] never returns an undefined value: each of the two
    is the value found or the empty string. What the Zendesk metadata
    gives wins over everything else: once [client.metadata()] has resolved
    the query of the page and [settings.json] are not looked at, so that
    metadata without a [BACKEND_BASE_URL] ends with the text
    [(missing BACKEND_BASE_URL)] and no health request, whatever the query
    says. The query is used, and [settings.json] left alone, when there is
    no metadata and the query names a backend. *)
Theorem readParams_precedence (src : Sources) (meta : jsval) (q : Fields)
    (sj answer : FetchOutcome) (el : Element) :
  ((truthy (fst (fst (readParams src))) = true
    \/ fst (fst (readParams src)) = JStr "")
   /\ (truthy (snd (fst (readParams src))) = true
       \/ snd (fst (readParams src)) = JStr ""))
  /\ readParams {| metadata := Some (Resolved meta); query := q;
                   settings_json := sj |}
     = (pick "BACKEND_BASE_URL" "API_KEY" (settings_of meta), false)
  /\ (truthy (get "BACKEND_BASE_URL" (settings_of meta)) = false ->
      init_health {| metadata := Some (Resolved meta); query := q;
                     settings_json := sj |} answer el
        = (show "(missing BACKEND_BASE_URL)" "err" el, []))
  /\ (truthy (get "backend" q) = true ->
      readParams {| metadata := None; query := q; settings_json := sj |}
        = ((get "backend" q, or_else (get "apikey" q) (JStr "")), false)).
Proof.
  split; [|split; [reflexivity|split]].
  - unfold readParams, readParams_fallback.
    destruct (metadata src) as [[m|e]|]; simpl;
      try apply pick_never_undefined;
      (destruct (truthy (or_else _ _)); simpl;
       [apply pick_never_undefined|]);
      (destruct (settings_json src) as [r|x|x]; simpl; auto;
       destruct (ok r); simpl; auto;
       destruct (json r) as [x|cfg]; simpl; auto;
       destruct cfg; simpl; auto; apply pick_never_undefined).
  - intros H. unfold init_health, readParams, pick. simpl.
    unfold or_else at 1. rewrite H. reflexivity.
  - intros H. unfold readParams, readParams_fallback, pick. simpl.
    unfold or_else at 1 2. rewrite H. simpl. rewrite H. reflexivity.
Qed.

Lemma readParams_precedence_witness :
  init_health {| metadata := Some (Resolved (JObj [("settings", JObj [])]));
                 query := [("backend", JStr "http://localhost:8080")];
                 settings_json := Scenario.ok_with (JObj []) |}
    (Scenario.ok_with (JObj []))
    {| textContent := "checking"; classes := ["muted"] |}
  = (show "(missing BACKEND_BASE_URL)" "err"
       {| textContent := "checking"; classes := ["muted"] |}, []).
Proof.
  apply (readParams_precedence
           {| metadata := None; query := []; settings_json := NetworkError "" |}
           (JObj [("settings", JObj [])])
           [("backend", JStr "http://localhost:8080")]
           (Scenario.ok_with (JObj [])) (Scenario.ok_with (JObj []))
           {| textContent := "checking"; classes := ["muted"] |}).
  reflexivity.
Defined.

End PreviewMore.

(* ================================================================== *)
(** ** The tabs and the banner of the dashboard                        *)
(* ================================================================== *)

Module DashboardFacts.
Import Gateway DashboardView.

Lemma includes_in_empty (t : string) : t <> "" -> includes "" t = false.
Proof. destruct t; [congruence | reflexivity]. Qed.

Lemma toLowerCase_nonempty (t : string) : t <> "" -> toLowerCase t <> "".
Proof. destruct t; [congruence | discriminate]. Qed.

Lemma lower_idempotent (c : ascii) : lower (lower c) = lower c.
Proof.
  destruct c as [[] [] [] [] [] [] [] []]; reflexivity.
Qed.

Lemma toLowerCase_idempotent (s : string) :
  toLowerCase (toLowerCase s) = toLowerCase s.
Proof.
  induction s as [|c s IH]; simpl; [reflexivity|].
  now rewrite lower_idempotent, IH.
Qed.

(** X23. Under the tab All every row is shown. Under a tab of another
    name the rows shown are rows of the list, in their order, and each has
    a group that is not empty: a ticket without group shows under All
    only. Letters are compared without their case: writing the groups in
    lower case changes nothing to the rows a tab selects. *)
Theorem tab_filter (rows : list Ticket) (tab : string) :
  filteredRows rows "All" = rows
  /\ ((tab =? "All")%string = false -> tab <> "" ->
      (forall r, In r (filteredRows rows tab) ->
         In r rows /\ exists g, group r = Some g /\ g <> "")
      /\ filteredRows (lower_groups rows) tab
         = lower_groups (filteredRows rows tab)).
Proof.
  split; [reflexivity|].
  intros Hall Hne. unfold filteredRows. rewrite Hall. split.
  - intros r H. apply filter_In in H as [Hin Hm]. split; [exact Hin|].
    unfold group_text in Hm. destruct (group r) as [g|].
    + exists g. split; [reflexivity|]. intros ->. cbn [toLowerCase] in Hm.
      rewrite includes_in_empty in Hm by now apply toLowerCase_nonempty.
      discriminate.
    + cbn [toLowerCase] in Hm.
      rewrite includes_in_empty in Hm by now apply toLowerCase_nonempty.
      discriminate.
  - unfold lower_groups.
    induction rows as [|r rows IH]; [reflexivity|].
    simpl. rewrite IH.
    assert (E : toLowerCase
                  (group_text {| group := option_map toLowerCase (group r);
                                 ageBucket := ageBucket r |})
                = toLowerCase (group_text r)).
    { unfold group_text. simpl. destruct (group r); simpl;
        [apply toLowerCase_idempotent | reflexivity]. }
    rewrite E. destruct (includes _ _); reflexivity.
Qed.

Lemma tab_filter_witness :
  (forall r,
     In r (filteredRows
             [ {| group := Some "AIMS Team"; ageBucket := Some "Over 30 Days" |};
               {| group := None; ageBucket := Some "Under 10 Days" |} ] "aims") ->
     In r [ {| group := Some "AIMS Team"; ageBucket := Some "Over 30 Days" |};
            {| group := None; ageBucket := Some "Under 10 Days" |} ]
     /\ exists g, group r = Some g /\ g <> "")
  /\ filteredRows
       (lower_groups
          [ {| group := Some "AIMS Team"; ageBucket := Some "Over 30 Days" |};
            {| group := None; ageBucket := Some "Under 10 Days" |} ]) "aims"
     = lower_groups
         (filteredRows
            [ {| group := Some "AIMS Team"; ageBucket := Some "Over 30 Days" |};
              {| group := None; ageBucket := Some "Under 10 Days" |} ] "aims").
Proof.
  apply (tab_filter
           [ {| group := Some "AIMS Team"; ageBucket := Some "Over 30 Days" |};
             {| group := None; ageBucket := Some "Under 10 Days" |} ] "aims").
  - reflexivity.
  - discriminate.
Defined.

(** The export message, once there, stays. *)
Lemma export_message_stays BASE token (clicks : list (nat -> FetchOutcome)) :
  forall d,
  own_err d = "Export failed. Please try again." ->
  own_err (fold_left (fun d srv => fst (exportClick BASE token d srv)) clicks d)
    = "Export failed. Please try again.".
Proof.
  induction clicks as [|srv clicks IH]; intros d H; [exact H|].
  simpl. apply IH. unfold exportClick.
  destruct (call BASE srv (Backend.runExport_call token)) as [[v|e] sent];
    simpl; auto.
Qed.

(** X24. A click on the export button sends the POST of [/api/export]
    without a body, twice at most, and ends with [exporting] cleared.
    The dashboard never clears its own error: once an export has failed,
    the banner shows the export message after any further exports, also
    successful ones, and whatever error the ticket hook reports. *)
Theorem export_failure_sticks (BASE token : string) (d : Own)
    (srv : nat -> FetchOutcome) (later : list (nat -> FetchOutcome))
    (ticketErr : string) :
  exporting (fst (exportClick BASE token d srv)) = false
  /\ (1 <= List.length (snd (exportClick BASE token d srv)) <= 2)%nat
  /\ (forall r, In r (snd (exportClick BASE token d srv)) ->
        method r = "POST" /\ url r = BASE ++ "/api/export" /\ body r = None)
  /\ (forall e,
        fst (call BASE srv (Backend.runExport_call token)) = Rejected e ->
        banner (fold_left (fun d srv => fst (exportClick BASE token d srv))
                  later (fst (exportClick BASE token d srv))) ticketErr
          = "Export failed. Please try again.").
Proof.
  pose proof (GatewayFacts.req_from_attempts srv 0 1) as Hlo.
  pose proof (GatewayFacts.req_from_bounded srv 0 1) as Hhi.
  pose proof (HookMore.call_requests BASE srv (Backend.runExport_call token)) as Hrq.
  pose proof (GatewayFacts.req_sent BASE srv "/api/export"
                (snd (Backend.runExport_call token))) as Hs.
  split; [|split; [|split]].
  - unfold exportClick.
    destruct (call BASE srv (Backend.runExport_call token)); reflexivity.
  - unfold exportClick, call in *. simpl fst in *. simpl snd in *.
    destruct (req BASE srv "/api/export" _) as [s sent]. simpl in *.
    subst sent. rewrite repeat_length. lia.
  - intros r H. unfold exportClick in H.
    destruct (call BASE srv (Backend.runExport_call token)) as [s sent].
    simpl in *. rewrite (Hrq r H). repeat split.
  - intros e H. unfold banner.
    rewrite export_message_stays; [reflexivity|].
    unfold exportClick.
    destruct (call BASE srv (Backend.runExport_call token)) as [s sent].
    simpl in *. subst s. reflexivity.
Qed.

Lemma export_failure_sticks_witness :
  banner (fold_left (fun d srv => fst (exportClick Scenario.BASE "" d srv))
            [Scenario.always (Scenario.ok_with (JObj []))]
            (fst (exportClick Scenario.BASE "" own_initial
                    (Scenario.always (Scenario.failing 500 "Internal Server Error" "boom")))))
    "Error 500: boom"
  = "Export failed. Please try again.".
Proof.
  apply (export_failure_sticks Scenario.BASE "" own_initial
           (Scenario.always (Scenario.failing 500 "Internal Server Error" "boom"))
           [Scenario.always (Scenario.ok_with (JObj []))] "Error 500: boom")
    with (e := Failure 500 "boom").
  reflexivity.
Defined.

End DashboardFacts.
